(** * The quoting loop of [autotrader7.py]

    A shallow embedding of the [AutoTrader] class of [src/autotrader7.py]
    (its imbalance score, its order-book handler and its fill, status and
    error handlers), and the properties of the quoting loop established on
    it.  Python integers are [Z]; Python floats are IEEE-754 binary64
    numbers, computed with the executable specification of the Standard
    Library ([SpecFloat]) and compared with the exact score on the real
    line; the two sets of order identifiers are [gset Z]. *)

From Stdlib Require Import ZArith List Bool Lia Reals Lra.
From Stdlib Require Import Floats.SpecFloat.
From stdpp Require Import base decidable gmap sets.
Import ListNotations.

#[local] Open Scope Z_scope.

(** ** Exceptions and results *)

(** The exceptions the modelled code can raise. *)
Inductive exception : Type :=
  | IndexError
  | OverflowError
  | ValueError
  | UnicodeDecodeError.

Inductive result (A : Type) : Type :=
  | Ok (a : A)
  | Raise (e : exception).

Arguments Ok {A} a.
Arguments Raise {A} e.

#[global] Instance result_ret : MRet result := fun _ a => Ok a.
#[global] Instance result_bind : MBind result := fun _ _ f m =>
  match m with
  | Ok a => f a
  | Raise e => Raise e
  end.

(** [l[i]] for a non-negative index [i]. *)
Definition index {A : Type} (l : list A) (i : nat) : result A :=
  match nth_error l i with
  | Some a => Ok a
  | None => Raise IndexError
  end.

(** ** Python floats *)

Module PyFloat.

Definition prec : Z := 53.
Definition emax : Z := 1024.

Definition float : Type := spec_float.

Definition add : float -> float -> float := SFadd prec emax.
Definition sub : float -> float -> float := SFsub prec emax.
Definition mul : float -> float -> float := SFmul prec emax.
Definition div : float -> float -> float := SFdiv prec emax.

(** [float(n)] for an [int]: the nearest double, ties to even;
    [OverflowError] when [n] is too large to convert. *)
Definition of_int (n : Z) : result float :=
  match binary_normalize prec emax n 0 false with
  | S754_infinity _ | S754_nan => Raise OverflowError
  | x => Ok x
  end.

(** [int(x)]: truncation toward zero; [OverflowError] on an infinity,
    [ValueError] on a NaN. *)
Definition to_int (x : float) : result Z :=
  match x with
  | S754_zero _ => Ok 0
  | S754_finite s m e =>
      Ok (cond_Zopp s (if e <? 0 then Z.pos m / 2 ^ (- e) else Z.pos m * 2 ^ e))
  | S754_infinity _ => Raise OverflowError
  | S754_nan => Raise ValueError
  end.

(** The literals [0.7], [0.2] and [0.1]: the doubles nearest to 7/10,
    2/10 and 1/10 (0x3FE6666666666666, 0x3FC999999999999A and
    0x3FB999999999999A). *)
Definition lit_0_7 : float := S754_finite false 6305039478318694 (-53).
Definition lit_0_2 : float := S754_finite false 7205759403792794 (-55).
Definition lit_0_1 : float := S754_finite false 7205759403792794 (-56).

(** [n * w] for an [int] [n] and a [float] [w]. *)
Definition int_mul (n : Z) (w : float) : result float :=
  x ← of_int n; mret (mul x w).

(** [x / n] for a [float] [x] and a non-zero [int] [n]. *)
Definition div_int (x : float) (n : Z) : result float :=
  y ← of_int n; mret (div x y).

End PyFloat.

(** ** Constants of the module *)

Definition VOLUME_LIMIT : Z := 200.
Definition LOT_SIZE : Z := 10.
Definition POSITION_SOFT_LIMIT : Z := 600.
Definition POSITION_LIMIT : Z := 1000.
Definition TICK_SIZE_IN_CENTS : Z := 100.
Definition MARKET_BALANCE_LIMIT : Z := 2.

(** ** The imbalance score *)

(** One pass of the loop body of [assess_market_balance] at index [i]. *)
Definition balance_step (weights : list PyFloat.float) (asks bids : list (Z * Z))
    (balance : PyFloat.float) (i : nat) : result PyFloat.float :=
  a ← index asks i;
  w ← index weights i;
  x ← PyFloat.int_mul (snd a) w;
  let balance := PyFloat.add balance x in
  b ← index bids i;
  w ← index weights i;
  y ← PyFloat.int_mul (snd b) w;
  mret (PyFloat.sub balance y).

(** [for i in range(n): body], threading [balance]. *)
Fixpoint for_range (body : PyFloat.float -> nat -> result PyFloat.float)
    (indices : list nat) (balance : PyFloat.float) : result PyFloat.float :=
  match indices with
  | [] => Ok balance
  | i :: rest => balance' ← body balance i; for_range body rest balance'
  end.

Definition assess_market_balance
    (ask_prices ask_volumes bid_prices bid_volumes : list Z) : result Z :=
  let weights := [PyFloat.lit_0_7; PyFloat.lit_0_2; PyFloat.lit_0_1] in
  let search_width := length weights in
  let asks := combine (firstn search_width ask_prices) (firstn search_width ask_volumes) in
  let bids := combine (firstn search_width bid_prices) (firstn search_width bid_volumes) in
  (* [balance = 0] is an [int]; the first [+=] converts it to [0.0] *)
  balance ← PyFloat.of_int 0;
  balance ← for_range (balance_step weights asks bids) (seq 0 search_width) balance;
  balance ← PyFloat.div_int balance (10 ^ 2);
  PyFloat.to_int balance.

(** ** The trader's state and the instructions it sends *)

Inductive Side : Type := SELL | BUY.
Inductive Lifespan : Type := FILL_AND_KILL | GOOD_FOR_DAY.

(** The attributes set by [__init__]; [order_ids] is the next value of
    [itertools.count(1)]. *)
Record AutoTrader : Type := mkAutoTrader {
  order_ids : Z;
  bids : gset Z;
  asks : gset Z;
  ask_id : Z;
  ask_price : Z;
  bid_id : Z;
  bid_price : Z;
  position : Z
}.

Definition init : AutoTrader :=
  {| order_ids := 1; bids := ∅; asks := ∅;
     ask_id := 0; ask_price := 0; bid_id := 0; bid_price := 0; position := 0 |}.

(** The calls made on the exchange connection. *)
Inductive instruction : Type :=
  | send_cancel_order (client_order_id : Z)
  | send_insert_order (client_order_id : Z) (side : Side) (price volume : Z)
      (lifespan : Lifespan).

(** A method of the trader: it reads and updates [self], sends
    instructions, and returns or raises.  An exception keeps the updates
    and the instructions made before it. *)
Definition M (A : Type) : Type :=
  AutoTrader -> result A * AutoTrader * list instruction.

Definition ret {A : Type} (a : A) : M A := fun self => (Ok a, self, []).

Definition bind {A B : Type} (m : M A) (f : A -> M B) : M B := fun self =>
  match m self with
  | (Ok a, self', out) =>
      let '(r, self'', out') := f a self' in (r, self'', out ++ out')
  | (Raise e, self', out) => (Raise e, self', out)
  end.

Declare Scope method_scope.
Delimit Scope method_scope with method.
Notation "x <- m ;; k" := (bind m (fun x => k))
  (at level 100, m at next level, right associativity) : method_scope.
Notation "m ;; k" := (bind m (fun _ => k))
  (at level 100, right associativity) : method_scope.

Definition get : M AutoTrader := fun self => (Ok self, self, []).
Definition modify (f : AutoTrader -> AutoTrader) : M unit :=
  fun self => (Ok tt, f self, []).
Definition send (i : instruction) : M unit := fun self => (Ok tt, self, [i]).
Definition lift {A : Type} (r : result A) : M A := fun self => (r, self, []).
Definition when (c : bool) (m : M unit) : M unit := if c then m else ret tt.

(** The final state, the instructions sent and the outcome of a call. *)
Definition state_of {A : Type} (x : result A * AutoTrader * list instruction) : AutoTrader :=
  snd (fst x).
Definition sent {A : Type} (x : result A * AutoTrader * list instruction) : list instruction :=
  snd x.
Definition outcome {A : Type} (x : result A * AutoTrader * list instruction) : result A :=
  fst (fst x).

(** Attribute assignments. *)
Definition set_bid_id (v : Z) (self : AutoTrader) : AutoTrader :=
  {| order_ids := order_ids self; bids := bids self; asks := asks self;
     ask_id := ask_id self; ask_price := ask_price self;
     bid_id := v; bid_price := bid_price self; position := position self |}.
Definition set_ask_id (v : Z) (self : AutoTrader) : AutoTrader :=
  {| order_ids := order_ids self; bids := bids self; asks := asks self;
     ask_id := v; ask_price := ask_price self;
     bid_id := bid_id self; bid_price := bid_price self; position := position self |}.
Definition set_bid_price (v : Z) (self : AutoTrader) : AutoTrader :=
  {| order_ids := order_ids self; bids := bids self; asks := asks self;
     ask_id := ask_id self; ask_price := ask_price self;
     bid_id := bid_id self; bid_price := v; position := position self |}.
Definition set_ask_price (v : Z) (self : AutoTrader) : AutoTrader :=
  {| order_ids := order_ids self; bids := bids self; asks := asks self;
     ask_id := ask_id self; ask_price := v;
     bid_id := bid_id self; bid_price := bid_price self; position := position self |}.
Definition set_position (v : Z) (self : AutoTrader) : AutoTrader :=
  {| order_ids := order_ids self; bids := bids self; asks := asks self;
     ask_id := ask_id self; ask_price := ask_price self;
     bid_id := bid_id self; bid_price := bid_price self; position := v |}.
Definition set_bids (v : gset Z) (self : AutoTrader) : AutoTrader :=
  {| order_ids := order_ids self; bids := v; asks := asks self;
     ask_id := ask_id self; ask_price := ask_price self;
     bid_id := bid_id self; bid_price := bid_price self; position := position self |}.
Definition set_asks (v : gset Z) (self : AutoTrader) : AutoTrader :=
  {| order_ids := order_ids self; bids := bids self; asks := v;
     ask_id := ask_id self; ask_price := ask_price self;
     bid_id := bid_id self; bid_price := bid_price self; position := position self |}.
Definition set_order_ids (v : Z) (self : AutoTrader) : AutoTrader :=
  {| order_ids := v; bids := bids self; asks := asks self;
     ask_id := ask_id self; ask_price := ask_price self;
     bid_id := bid_id self; bid_price := bid_price self; position := position self |}.

(** [next(self.order_ids)]. *)
Definition next_order_id : M Z := fun self =>
  (Ok (order_ids self), set_order_ids (order_ids self + 1) self, []).

(** ** The volumes quoted on a tick *)

(** Lines 81-84: the volumes before scaling. *)
Definition base_bid_volume (position : Z) : Z :=
  if position >? 0 then LOT_SIZE
  else Z.min (Z.max LOT_SIZE (Z.abs position)) (VOLUME_LIMIT - LOT_SIZE).

Definition base_ask_volume (position : Z) : Z :=
  if position <? 0 then LOT_SIZE
  else Z.min (Z.max LOT_SIZE (Z.abs position)) (VOLUME_LIMIT - LOT_SIZE).

(** Lines 89-99: the scaling of one side by the clamped balance; the
    result is the pair of [new_bid_volume] and [new_ask_volume]. *)
Definition scale_volumes (position balance new_bid_volume new_ask_volume : Z) : Z * Z :=
  if position <=? POSITION_SOFT_LIMIT then
    if balance >? 0 then
      let balance := if balance >? MARKET_BALANCE_LIMIT then MARKET_BALANCE_LIMIT else balance in
      (new_bid_volume * balance, new_ask_volume)
    else if balance <? 0 then
      let balance := if balance <? - MARKET_BALANCE_LIMIT then - MARKET_BALANCE_LIMIT else balance in
      (new_bid_volume, new_ask_volume * - balance)
    else (new_bid_volume, new_ask_volume)
  else (new_bid_volume, new_ask_volume).

(** [x not in (a, b)]. *)
Definition not_in (x a b : Z) : bool := negb ((x =? a) || (x =? b)).

(** ** The handlers *)

Section Handlers.

(** [Instrument.FUTURE], a constant of [ready_trader_one.types], and the
    success of [bytes.decode] (strict UTF-8) on a message. *)
Variable FUTURE : Z.
Variable decodes : list Byte.byte -> bool.

#[local] Open Scope method_scope.

Definition on_order_status_message
    (client_order_id fill_volume remaining_volume fees : Z) : M unit :=
  if remaining_volume =? 0 then
    self <- get ;;
    (if client_order_id =? bid_id self then modify (set_bid_id 0)
     else if client_order_id =? ask_id self then modify (set_ask_id 0)
     else ret tt) ;;
    self <- get ;;
    modify (set_bids (bids self ∖ {[client_order_id]})) ;;
    self <- get ;;
    modify (set_asks (asks self ∖ {[client_order_id]}))
  else ret tt.

Definition on_error_message (client_order_id : Z) (error_message : list Byte.byte) : M unit :=
  (if decodes error_message then ret tt else lift (Raise UnicodeDecodeError)) ;;
  if negb (client_order_id =? 0) then
    on_order_status_message client_order_id 0 0 0
  else ret tt.

Definition on_order_filled_message (client_order_id price volume : Z) : M unit :=
  self <- get ;;
  if decide (client_order_id ∈ bids self) then
    modify (set_position (position self + volume))
  else if decide (client_order_id ∈ asks self) then
    modify (set_position (position self - volume))
  else ret tt.

(** Lines 102-119: cancel the orders whose price moved, then insert
    the missing quotes that keep the position inside the limit. *)
Definition reconcile (new_bid_price new_ask_price new_bid_volume new_ask_volume : Z) : M unit :=
  self <- get ;;
  when (negb (bid_id self =? 0) && not_in new_bid_price (bid_price self) 0)
    (send (send_cancel_order (bid_id self)) ;;
     modify (set_bid_id 0)) ;;
  self <- get ;;
  when (negb (ask_id self =? 0) && not_in new_ask_price (ask_price self) 0)
    (send (send_cancel_order (ask_id self)) ;;
     modify (set_ask_id 0)) ;;
  self <- get ;;
  when ((bid_id self =? 0) && negb (new_bid_price =? 0)
        && (position self + new_bid_volume <? POSITION_LIMIT))
    (id <- next_order_id ;;
     modify (set_bid_id id) ;;
     modify (set_bid_price new_bid_price) ;;
     self <- get ;;
     send (send_insert_order (bid_id self) BUY new_bid_price new_bid_volume GOOD_FOR_DAY) ;;
     self <- get ;;
     modify (set_bids (bids self ∪ {[bid_id self]}))) ;;
  self <- get ;;
  when ((ask_id self =? 0) && negb (new_ask_price =? 0)
        && (position self - new_ask_volume >? - POSITION_LIMIT))
    (id <- next_order_id ;;
     modify (set_ask_id id) ;;
     modify (set_ask_price new_ask_price) ;;
     self <- get ;;
     send (send_insert_order (ask_id self) SELL new_ask_price new_ask_volume GOOD_FOR_DAY) ;;
     self <- get ;;
     modify (set_asks (asks self ∪ {[ask_id self]}))).

Definition on_order_book_update_message (instrument sequence_number : Z)
    (ask_prices ask_volumes bid_prices bid_volumes : list Z) : M unit :=
  if instrument =? FUTURE then
    b0 <- lift (index bid_prices 0) ;;
    let new_bid_price := if negb (b0 =? 0) then b0 else 0 in
    a0 <- lift (index ask_prices 0) ;;
    let new_ask_price := if negb (a0 =? 0) then a0 else 0 in
    self <- get ;;
    let new_bid_volume := base_bid_volume (position self) in
    let new_ask_volume := base_ask_volume (position self) in
    balance <- lift (assess_market_balance ask_prices ask_volumes bid_prices bid_volumes) ;;
    let '(new_bid_volume, new_ask_volume) :=
      scale_volumes (position self) balance new_bid_volume new_ask_volume in
    reconcile new_bid_price new_ask_price new_bid_volume new_ask_volume
  else ret tt.

(** *** Runs of the trader *)

(** The messages the trader receives. *)
Inductive event : Type :=
  | ErrorMessage (client_order_id : Z) (error_message : list Byte.byte)
  | OrderBookUpdate (instrument sequence_number : Z)
      (ask_prices ask_volumes bid_prices bid_volumes : list Z)
  | OrderFilled (client_order_id price volume : Z)
  | OrderStatus (client_order_id fill_volume remaining_volume fees : Z).

Definition handle (ev : event) : M unit :=
  match ev with
  | ErrorMessage id msg => on_error_message id msg
  | OrderBookUpdate i n ap av bp bv => on_order_book_update_message i n ap av bp bv
  | OrderFilled id p v => on_order_filled_message id p v
  | OrderStatus id fv rv fees => on_order_status_message id fv rv fees
  end.

(** The state after a sequence of messages, whether or not a handler
    raised on the way. *)
Definition run (evs : list event) (self : AutoTrader) : AutoTrader :=
  fold_left (fun s ev => state_of (handle ev s)) evs self.

(** The states the trader can be in. *)
Inductive reachable : AutoTrader -> Prop :=
  | reachable_init : reachable init
  | reachable_step (self : AutoTrader) (ev : event) :
      reachable self -> reachable (state_of (handle ev self)).

End Handlers.

Arguments assess_market_balance : simpl never.

(** ** Vocabulary of the statements *)

(** An insert keeps the position strictly inside the hard limit when it is
    filled in full. *)
Definition within_hard_limit (position : Z) (i : instruction) : Prop :=
  match i with
  | send_insert_order _ BUY _ volume _ => position + volume < 1000
  | send_insert_order _ SELL _ volume _ => position - volume > -1000
  | send_cancel_order _ => True
  end.

Definition is_insert (i : instruction) : bool :=
  match i with
  | send_insert_order _ _ _ _ _ => true
  | send_cancel_order _ => false
  end.

(** Every insert of [out] carries [bid_volume] on the buy side and
    [ask_volume] on the sell side. *)
Definition insert_volumes (out : list instruction) (bid_volume ask_volume : Z) : Prop :=
  Forall (fun i =>
    match i with
    | send_insert_order _ BUY _ volume _ => volume = bid_volume
    | send_insert_order _ SELL _ volume _ => volume = ask_volume
    | send_cancel_order _ => True
    end) out.

(** The volume of an insert, [0] for a cancel. *)
Definition volume_of (i : instruction) : Z :=
  match i with
  | send_insert_order _ _ _ volume _ => volume
  | send_cancel_order _ => 0
  end.

(** [clamp(x, lo, hi)] as the specification names it. *)
Definition clamp (x lo hi : Z) : Z := Z.max lo (Z.min x hi).

(** The score of the specification, in exact arithmetic: the weighted
    difference of the three best levels, over 100, truncated toward zero.
    With weights 7/10, 2/10 and 1/10 this is the quotient by 1000 of
    [weighted_difference]. *)
Definition weighted_difference (a1 a2 a3 b1 b2 b3 : Z) : Z :=
  (7 * a1 + 2 * a2 + 1 * a3) - (7 * b1 + 2 * b2 + 1 * b3).

Definition exact_score (a1 a2 a3 b1 b2 b3 : Z) : Z :=
  weighted_difference a1 a2 a3 b1 b2 b3 ÷ 1000.

(** The volumes of the three best levels are those of a 32-bit feed. *)
Definition volumes_in_range (volumes : list Z) : Prop :=
  Forall (fun v => 0 <= v < 2 ^ 32) (firstn 3 volumes).

(** The identifiers of a reachable state: fresh identifiers come from the
    counter, so the two sides never share one. *)
Record ledger_ok (self : AutoTrader) : Prop := {
  ids_positive : 0 < order_ids self;
  bid_id_issued : 0 <= bid_id self < order_ids self;
  ask_id_issued : 0 <= ask_id self < order_ids self;
  ids_distinct : bid_id self = ask_id self -> bid_id self = 0;
  bids_issued : forall x, x ∈ bids self -> 0 < x < order_ids self;
  asks_issued : forall x, x ∈ asks self -> 0 < x < order_ids self;
  sides_disjoint : bids self ## asks self
}.

(** ** Traces of instructions *)

(** The instructions sent along a sequence of messages, oldest first. *)
Fixpoint run_sent (FUTURE : Z) (decodes : list Byte.byte -> bool)
    (evs : list event) (self : AutoTrader) : list instruction :=
  match evs with
  | [] => []
  | ev :: rest =>
      sent (handle FUTURE decodes ev self)
      ++ run_sent FUTURE decodes rest (state_of (handle FUTURE decodes ev self))
  end.

(** The identifiers of the inserts of a list of instructions, in order. *)
Fixpoint insert_ids (out : list instruction) : list Z :=
  match out with
  | [] => []
  | send_insert_order id _ _ _ _ :: rest => id :: insert_ids rest
  | send_cancel_order _ :: rest => insert_ids rest
  end.

(** The identifiers of the cancels of a list of instructions, in order. *)
Fixpoint cancel_ids (out : list instruction) : list Z :=
  match out with
  | [] => []
  | send_cancel_order id :: rest => id :: cancel_ids rest
  | send_insert_order _ _ _ _ _ :: rest => cancel_ids rest
  end.

(** [n] consecutive integers from [start]. *)
Fixpoint consecutive (start : Z) (n : nat) : list Z :=
  match n with
  | O => []
  | S n' => start :: consecutive (start + 1) n'
  end.

(** A live order is in the set of its side. *)
Definition live_tracked (self : AutoTrader) : Prop :=
  (bid_id self <> 0 -> bid_id self ∈ bids self)
  /\ (ask_id self <> 0 -> ask_id self ∈ asks self).

(** The instructions expected of a tick that quotes [p] and [q] with
    volumes [v] and [w]: the cancels of the quotes whose price moved, then
    the inserts of the quotes that are missing or were just cancelled. *)
Definition expected_instructions (self : AutoTrader) (p q v w : Z) : list instruction :=
  let cancel_bid := negb (bid_id self =? 0) && negb (p =? 0) && negb (p =? bid_price self) in
  let cancel_ask := negb (ask_id self =? 0) && negb (q =? 0) && negb (q =? ask_price self) in
  let insert_bid :=
    negb (p =? 0) && ((bid_id self =? 0) || negb (p =? bid_price self))
    && (position self + v <? 1000) in
  let insert_ask :=
    negb (q =? 0) && ((ask_id self =? 0) || negb (q =? ask_price self))
    && (position self - w >? -1000) in
  (if cancel_bid then [send_cancel_order (bid_id self)] else [])
  ++ (if cancel_ask then [send_cancel_order (ask_id self)] else [])
  ++ (if insert_bid then [send_insert_order (order_ids self) BUY p v GOOD_FOR_DAY] else [])
  ++ (if insert_ask
      then [send_insert_order (order_ids self + (if insert_bid then 1 else 0))
              SELL q w GOOD_FOR_DAY]
      else []).

(** Each of the four lists of a snapshot has three entries or more. *)
Definition three_deep (ap av bp bv : list Z) : bool :=
  (3 <=? length ap)%nat && (3 <=? length av)%nat
  && (3 <=? length bp)%nat && (3 <=? length bv)%nat.

(** The score of a snapshot is computed: the call of line 86 returns. *)
Definition score_computed (ap av bp bv : list Z) : bool :=
  match assess_market_balance ap av bp bv with
  | Ok _ => true
  | Raise _ => false
  end.

(** An insert carries between the base volume of its side and that
    volume times the bound on the multiplier. *)
Definition scaled_within (bid ask : Z) (i : instruction) : Prop :=
  match i with
  | send_insert_order _ BUY _ volume _ => bid <= volume <= MARKET_BALANCE_LIMIT * bid
  | send_insert_order _ SELL _ volume _ => ask <= volume <= MARKET_BALANCE_LIMIT * ask
  | send_cancel_order _ => True
  end.

Definition same_side (a b : Side) : bool :=
  match a, b with
  | BUY, BUY | SELL, SELL => true
  | _, _ => false
  end.

(** The identifiers of the inserts of one side, in order. *)
Fixpoint side_insert_ids (side : Side) (out : list instruction) : list Z :=
  match out with
  | [] => []
  | send_insert_order id s _ _ _ :: rest =>
      if same_side side s then id :: side_insert_ids side rest
      else side_insert_ids side rest
  | send_cancel_order _ :: rest => side_insert_ids side rest
  end.




(** ** Example data *)

(** Example snapshots: five levels per side, the absent ones zero. *)
Definition ex_ask_prices : list Z := [10100; 10200; 10300; 0; 0].
Definition ex_bid_prices : list Z := [10000; 9900; 9800; 0; 0].
Definition ex_heavy : list Z := [1000; 1000; 1000; 0; 0].
Definition ex_empty : list Z := [0; 0; 0; 0; 0].

(** The trader after a first tick on [init]: a bid (1) and an ask (2) rest. *)
Definition ex_quoting : AutoTrader :=
  state_of (on_order_book_update_message 0 0 1 ex_ask_prices ex_heavy ex_bid_prices ex_empty init).

(** One round of selling: a tick while the bids are heavy (the ask is
    doubled to 20 lots), the ask [id] filled in full, and its closure. *)
Definition sell_round (FUTURE id : Z) : list event :=
  [OrderBookUpdate FUTURE id ex_ask_prices ex_empty ex_bid_prices ex_heavy;
   OrderFilled id 10100 20;
   OrderStatus id 20 0 0].

(** Six rounds of selling: the asks are 2, 3, 4, 5, 6 and 7 (1 is the
    resting bid) and the position ends at -120. *)
Definition sell_rounds (FUTURE : Z) : list event :=
  sell_round FUTURE 2 ++ sell_round FUTURE 3 ++ sell_round FUTURE 4
  ++ sell_round FUTURE 5 ++ sell_round FUTURE 6 ++ sell_round FUTURE 7.

(** ** The real value of a float *)

Section FloatValues.

#[local] Open Scope R_scope.

(** [2 ^ e] as a real number. *)
Definition bpow (e : Z) : R := powerRZ 2 e.

(** The real value of a float; [0] for the infinities and NaN. *)
Definition SF2R (f : spec_float) : R :=
  match f with
  | S754_finite s m e => (if s then -1 else 1) * (IZR (Zpos m) * bpow e)
  | _ => 0
  end.

(** [x] lies in the slice [m * 2^e, (m + 1) * 2^e), at the place [l] says. *)
Definition inbetween (m e : Z) (l : location) (x : R) : Prop :=
  match l with
  | loc_Exact => x = IZR m * bpow e
  | loc_Inexact Lt => IZR m * bpow e < x < (IZR m + /2) * bpow e
  | loc_Inexact Eq => x = (IZR m + /2) * bpow e
  | loc_Inexact Gt => (IZR m + /2) * bpow e < x < (IZR m + 1) * bpow e
  end.

(** Zero or finite, with exponent at most [M]. *)
Definition fin_le (M : Z) (f : spec_float) : Prop :=
  match f with
  | S754_zero _ => True
  | S754_finite _ _ e => (e <= M)%Z
  | _ => False
  end.

(** A shift record with a non-negative mantissa that locates [x]. *)
Definition shr_loc (mrs : shr_record) (e : Z) (x : R) : Prop :=
  (0 <= shr_m mrs)%Z /\ inbetween (shr_m mrs) e (loc_of_shr_record mrs) x.

(** [a] is within [err] of [x]. *)
Definition near (a x err : R) : Prop := x - err <= a <= x + err.

(** [float(10 ** 2)], the divisor of the score. *)
Definition c100 : spec_float := S754_finite false 7036874417766400 (-46).

End FloatValues.

(** ** The order-book handler, case by case *)

Ltac case_conditions :=
  repeat match goal with
  | |- context [when ?b _] => destruct b eqn:?; cbn
  end.

Ltac split_conditions :=
  repeat match goal with
  | H : _ && _ = true |- _ => apply andb_prop in H; destruct H
  | H : _ && _ = false |- _ => apply andb_false_iff in H
  | H : negb _ = true |- _ => apply negb_true_iff in H
  | H : negb _ = false |- _ => apply negb_false_iff in H
  | H : (_ =? _) = true |- _ => apply Z.eqb_eq in H
  | H : (_ =? _) = false |- _ => apply Z.eqb_neq in H
  | H : (_ <? _) = true |- _ => apply Z.ltb_lt in H
  | H : (_ <? _) = false |- _ => apply Z.ltb_ge in H
  | H : (_ >? _) = true |- _ => rewrite Z.gtb_ltb in H
  | H : (_ >? _) = false |- _ => rewrite Z.gtb_ltb in H
  | H : (_ <=? _) = true |- _ => apply Z.leb_le in H
  | H : (_ <=? _) = false |- _ => apply Z.leb_gt in H
  end.

Lemma bind_lift_Ok {A B : Type} (a : A) (f : A -> M B) self :
  bind (lift (Ok a)) f self = f a self.
Proof. unfold bind, lift. destruct (f a self) as [[r s] o]. reflexivity. Qed.

Lemma bind_get {B : Type} (f : AutoTrader -> M B) self :
  bind get f self = f self self.
Proof. unfold bind, get. destruct (f self self) as [[r s] o]. reflexivity. Qed.

(** A tick either leaves everything as it was and sends nothing (another
    instrument, or an exception while reading the snapshot), or reconciles
    the ledger with the best prices and the scaled volumes. *)
Lemma tick_cases FUTURE instrument seq ap av bp bv self :
  (state_of (on_order_book_update_message FUTURE instrument seq ap av bp bv self) = self
   /\ sent (on_order_book_update_message FUTURE instrument seq ap av bp bv self) = [])
  \/ (exists b0 a0 balance,
        instrument = FUTURE /\ index bp 0 = Ok b0 /\ index ap 0 = Ok a0
        /\ assess_market_balance ap av bp bv = Ok balance
        /\ on_order_book_update_message FUTURE instrument seq ap av bp bv self
           = reconcile b0 a0
               (fst (scale_volumes (position self) balance
                       (base_bid_volume (position self)) (base_ask_volume (position self))))
               (snd (scale_volumes (position self) balance
                       (base_bid_volume (position self)) (base_ask_volume (position self))))
               self).
Proof.
  unfold on_order_book_update_message.
  destruct (instrument =? FUTURE) eqn:Hi; [| left; split; reflexivity].
  apply Z.eqb_eq in Hi.
  destruct (index bp 0) as [b0|e] eqn:Hb; [| left; split; reflexivity].
  rewrite bind_lift_Ok.
  destruct (index ap 0) as [a0|e] eqn:Ha; [| left; split; reflexivity].
  rewrite bind_lift_Ok, bind_get.
  destruct (assess_market_balance ap av bp bv) as [balance|e] eqn:Hs;
    [| left; split; reflexivity].
  rewrite bind_lift_Ok.
  right. exists b0, a0, balance. repeat split; try assumption.
  destruct (scale_volumes _ _ _ _) as [v w]; cbn [fst snd].
  assert (Hp : forall x, (if negb (x =? 0) then x else 0) = x)
    by (intros x; destruct (x =? 0) eqn:E; cbn; [apply Z.eqb_eq in E; lia | reflexivity]).
  rewrite !Hp. reflexivity.
Qed.

Lemma reconcile_within self p q v w :
  Forall (within_hard_limit (position self)) (sent (reconcile p q v w self)).
Proof.
  unfold reconcile, sent; cbn. case_conditions.
  all: unfold POSITION_LIMIT in *; split_conditions.
  all: repeat constructor; cbn; lia.
Qed.

Lemma reconcile_insert_volumes self p q v w :
  insert_volumes (sent (reconcile p q v w self)) v w.
Proof.
  unfold reconcile, sent, insert_volumes; cbn. case_conditions.
  all: repeat constructor.
Qed.

Lemma reconcile_position self p q v w :
  position (state_of (reconcile p q v w self)) = position self.
Proof.
  unfold reconcile, state_of; cbn. case_conditions; reflexivity.
Qed.


(** The instructions of a reconciliation, in full. *)
Lemma reconcile_sent_full self p q v w :
  sent (reconcile p q v w self)
  = (if negb (bid_id self =? 0) && negb (p =? 0) && negb (p =? bid_price self)
     then [send_cancel_order (bid_id self)] else [])
    ++ (if negb (ask_id self =? 0) && negb (q =? 0) && negb (q =? ask_price self)
        then [send_cancel_order (ask_id self)] else [])
    ++ (if negb (p =? 0) && ((bid_id self =? 0) || negb (p =? bid_price self))
           && (position self + v <? 1000)
        then [send_insert_order (order_ids self) BUY p v GOOD_FOR_DAY] else [])
    ++ (if negb (q =? 0) && ((ask_id self =? 0) || negb (q =? ask_price self))
           && (position self - w >? -1000)
        then [send_insert_order
                (order_ids self
                 + (if negb (p =? 0) && ((bid_id self =? 0) || negb (p =? bid_price self))
                       && (position self + v <? 1000) then 1 else 0))
                SELL q w GOOD_FOR_DAY]
        else []).
Proof.
  unfold reconcile, sent, not_in, POSITION_LIMIT; cbn.
  change (Z.opp 1000) with (-1000).
  destruct (bid_id self =? 0) eqn:B, (p =? 0) eqn:P, (p =? bid_price self) eqn:PB,
    (ask_id self =? 0) eqn:A, (q =? 0) eqn:Q, (q =? ask_price self) eqn:QA,
    (position self + v <? 1000) eqn:L, (position self - w >? -1000) eqn:U;
    repeat (progress (cbn; rewrite ?B, ?A, ?P, ?Q, ?PB, ?QA, ?L, ?U));
    rewrite ?Z.add_0_r; reflexivity.
Qed.

(** ** Invariants of the reachable states *)

Lemma init_ledger_ok : ledger_ok init.
Proof.
  constructor; cbn; try lia.
  all: intros x Hx; exfalso; exact (not_elem_of_empty x Hx).
Qed.

Ltac ledger_fields H :=
  destruct H as [Hpos Hbid Hask Hdist Hbids Hasks Hdisj];
  constructor; cbn in *; try lia;
  try (intros x Hx; set_unfold in Hx;
       repeat match goal with
              | U : _ \/ _ |- _ => destruct U
              | U : _ /\ _ |- _ => destruct U
              end;
       subst;
       try match goal with U : _ ∈ bids _ |- _ => apply Hbids in U end;
       try match goal with U : _ ∈ asks _ |- _ => apply Hasks in U end;
       lia).

Lemma disjoint_fresh (X Y : gset Z) (n m : Z) :
  X ## Y -> (forall x, x ∈ X -> 0 < x < n) -> (forall x, x ∈ Y -> 0 < x < n) -> n <= m ->
  (X ∪ {[m]}) ## Y /\ X ## (Y ∪ {[m]}).
Proof.
  intros HD HX HY Hnm. split.
  - intros x Hx Hy. apply elem_of_union in Hx as [Hx | Hx].
    + exact (HD x Hx Hy).
    + apply elem_of_singleton in Hx. subst. apply HY in Hy. lia.
  - intros x Hx Hy. apply elem_of_union in Hy as [Hy | Hy].
    + exact (HD x Hx Hy).
    + apply elem_of_singleton in Hy. subst. apply HX in Hx. lia.
Qed.

Lemma reconcile_ledger_ok self p q v w :
  ledger_ok self -> ledger_ok (state_of (reconcile p q v w self)).
Proof.
  intros H. unfold reconcile, state_of; cbn. case_conditions.
  all: split_conditions.
  all: pose proof (disjoint_fresh _ _ _ (order_ids self) (sides_disjoint _ H)
                     (bids_issued _ H) (asks_issued _ H) (Z.le_refl _)) as [D1 D2].
  all: pose proof (disjoint_fresh _ _ _ (order_ids self + 1) (sides_disjoint _ H)
                     (bids_issued _ H) (asks_issued _ H) ltac:(lia)) as [D3 D4].
  all: try solve [ledger_fields H; try assumption].
  all: ledger_fields H.
  all: intros x Hx Hy; apply elem_of_union in Hx as [Hx | Hx];
         apply elem_of_union in Hy as [Hy | Hy];
         try (apply elem_of_singleton in Hx); try (apply elem_of_singleton in Hy); subst;
         try (pose proof (Hbids _ Hx)); try (pose proof (Hasks _ Hy)); try lia;
         exact (Hdisj x Hx Hy).
Qed.

Lemma status_ledger_ok id fv rv fees self :
  ledger_ok self -> ledger_ok (state_of (on_order_status_message id fv rv fees self)).
Proof.
  intros H. unfold on_order_status_message, state_of.
  destruct (rv =? 0); [| exact H].
  rewrite bind_get.
  destruct (id =? bid_id self) eqn:E1; [| destruct (id =? ask_id self) eqn:E2]; cbn.
  all: split_conditions.
  all: destruct H as [Hpos Hbid Hask Hdist Hbids Hasks Hdisj]; constructor; cbn; try lia.
  all: try solve [intros x Hx; apply elem_of_difference in Hx as [Hx _]; auto].
  all: intros x Hx Hy; apply elem_of_difference in Hx as [Hx _];
         apply elem_of_difference in Hy as [Hy _]; exact (Hdisj x Hx Hy).
Qed.

Lemma filled_ledger_ok id price volume self :
  ledger_ok self -> ledger_ok (state_of (on_order_filled_message id price volume self)).
Proof.
  intros H. unfold on_order_filled_message, state_of. rewrite bind_get.
  destruct (decide (id ∈ bids self)); [| destruct (decide (id ∈ asks self))]; cbn.
  all: destruct H; constructor; cbn; assumption.
Qed.

Lemma error_ledger_ok decodes id msg self :
  ledger_ok self -> ledger_ok (state_of (on_error_message decodes id msg self)).
Proof.
  intros H. unfold on_error_message.
  destruct (decodes msg); [| exact H].
  change (bind (ret tt) ?f self) with (bind (lift (Ok tt)) f self).
  rewrite bind_lift_Ok.
  destruct (negb (id =? 0)); [apply status_ledger_ok; exact H | exact H].
Qed.

Lemma tick_ledger_ok FUTURE instrument seq ap av bp bv self :
  ledger_ok self ->
  ledger_ok (state_of (on_order_book_update_message FUTURE instrument seq ap av bp bv self)).
Proof.
  intros H.
  destruct (tick_cases FUTURE instrument seq ap av bp bv self)
    as [[Hs _] | (b0 & a0 & balance & _ & _ & _ & _ & Ht)].
  - rewrite Hs. exact H.
  - rewrite Ht. apply reconcile_ledger_ok. exact H.
Qed.

Lemma reachable_ledger_ok FUTURE decodes self :
  reachable FUTURE decodes self -> ledger_ok self.
Proof.
  induction 1 as [| self ev _ IH].
  - exact init_ledger_ok.
  - destruct ev; cbn [handle].
    + apply error_ledger_ok, IH.
    + apply tick_ledger_ok, IH.
    + apply filled_ledger_ok, IH.
    + apply status_ledger_ok, IH.
Qed.

Lemma reachable_run FUTURE decodes evs :
  forall self, reachable FUTURE decodes self -> reachable FUTURE decodes (run FUTURE decodes evs self).
Proof.
  induction evs as [| ev evs IH]; intros self H; cbn.
  - exact H.
  - apply IH. constructor. exact H.
Qed.

(** The tick on the tracked instrument does not depend on the value of
    [Instrument.FUTURE]. *)
Lemma tick_FUTURE_eq FUTURE seq ap av bp bv self :
  on_order_book_update_message FUTURE FUTURE seq ap av bp bv self
  = on_order_book_update_message 0 0 seq ap av bp bv self.
Proof.
  unfold on_order_book_update_message. rewrite !Z.eqb_refl. reflexivity.
Qed.

(** ** Volumes *)

Lemma base_bid_volume_range position : 10 <= base_bid_volume position <= 190.
Proof.
  unfold base_bid_volume, LOT_SIZE, VOLUME_LIMIT. destruct (position >? 0); lia.
Qed.

Lemma base_ask_volume_range position : 10 <= base_ask_volume position <= 190.
Proof.
  unfold base_ask_volume, LOT_SIZE, VOLUME_LIMIT. destruct (position <? 0); lia.
Qed.

(** The scaling, with the clamp written as a minimum. *)
Lemma scale_volumes_eq position balance v w :
  scale_volumes position balance v w =
    if position <=? 600 then
      if 0 <? balance then (v * Z.min balance 2, w)
      else if balance <? 0 then (v, w * Z.min (Z.abs balance) 2)
      else (v, w)
    else (v, w).
Proof.
  unfold scale_volumes, POSITION_SOFT_LIMIT, MARKET_BALANCE_LIMIT.
  change (Z.opp 2) with (-2).
  destruct (position <=? 600); [| reflexivity].
  rewrite Z.gtb_ltb. destruct (0 <? balance) eqn:E1.
  - rewrite Z.gtb_ltb. destruct (2 <? balance) eqn:E2; split_conditions; do 2 f_equal; lia.
  - destruct (balance <? 0) eqn:E2; [| reflexivity].
    destruct (balance <? -2) eqn:E3; split_conditions; do 2 f_equal; lia.
Qed.

Lemma scale_volumes_range position balance v w :
  10 <= v <= 190 -> 10 <= w <= 190 ->
  10 <= fst (scale_volumes position balance v w) <= 380
  /\ 10 <= snd (scale_volumes position balance v w) <= 380.
Proof.
  intros Hv Hw. rewrite scale_volumes_eq.
  destruct (position <=? 600); [| cbn; lia].
  destruct (0 <? balance) eqn:E1; [| destruct (balance <? 0) eqn:E2];
    cbn [fst snd]; split_conditions; try lia.
  - assert (Hb : Z.min balance 2 = 1 \/ Z.min balance 2 = 2) by lia.
    destruct Hb as [-> | ->]; lia.
  - assert (Hb : Z.min (Z.abs balance) 2 = 1 \/ Z.min (Z.abs balance) 2 = 2) by lia.
    destruct Hb as [-> | ->]; lia.
Qed.

(** The score can only be computed from three levels on each side. *)
Lemma balance_step_Ok weights asks bids balance i r :
  balance_step weights asks bids balance i = Ok r ->
  (i < length asks)%nat /\ (i < length bids)%nat.
Proof.
  unfold balance_step, index.
  destruct (nth_error asks i) as [a|] eqn:Ea; [| discriminate].
  destruct (nth_error bids i) as [b|] eqn:Eb.
  - intros _. split; apply nth_error_Some; congruence.
  - cbn. destruct (nth_error weights i); cbn; [| discriminate].
    destruct (PyFloat.int_mul (snd a) f); cbn; discriminate.
Qed.

Lemma assess_Ok_lengths ap av bp bv balance :
  assess_market_balance ap av bp bv = Ok balance ->
  (3 <= length ap)%nat /\ (3 <= length av)%nat
  /\ (3 <= length bp)%nat /\ (3 <= length bv)%nat.
Proof.
  unfold assess_market_balance. cbn [length seq for_range].
  change (PyFloat.of_int 0) with (Ok (S754_zero false)). cbn [mbind result_bind].
  destruct (balance_step _ _ _ _ 0%nat) as [x0|]; [cbn [mbind result_bind] | discriminate].
  destruct (balance_step _ _ _ _ 1%nat) as [x1|]; [cbn [mbind result_bind] | discriminate].
  destruct (balance_step _ _ _ _ 2%nat) as [x2|] eqn:E; [| discriminate].
  intros _. apply balance_step_Ok in E as [Ha Hb].
  rewrite length_combine, !length_firstn in Ha, Hb. lia.
Qed.

(** ** The quoting loop *)

(** C1: on every order-book tick, from every state of the trader (hence
    from every reachable one), each insert sent keeps the position strictly
    inside the hard limit when filled in full: a buy of volume v is sent
    only when position + v < 1000 and a sell of volume v only when
    position - v > -1000; the tick itself leaves the position as it is. *)
Theorem C1_insert_within_hard_limit FUTURE instrument seq ap av bp bv self :
  Forall (within_hard_limit (position self))
    (sent (on_order_book_update_message FUTURE instrument seq ap av bp bv self))
  /\ position (state_of (on_order_book_update_message FUTURE instrument seq ap av bp bv self))
     = position self.
Proof.
  destruct (tick_cases FUTURE instrument seq ap av bp bv self)
    as [[Hs Ho] | (b0 & a0 & balance & _ & _ & _ & _ & Ht)].
  - rewrite Hs, Ho. split; [constructor | reflexivity].
  - rewrite Ht. split; [apply reconcile_within | apply reconcile_position].
Qed.

Lemma index_0_nth (l : list Z) x : index l 0 = Ok x -> nth 0 l 0 = x.
Proof. destruct l; cbn; [discriminate | congruence]. Qed.

(** The tick on the tracked instrument, when the score is computed. *)
Lemma tick_reconcile FUTURE seq ap av bp bv self balance :
  assess_market_balance ap av bp bv = Ok balance ->
  on_order_book_update_message FUTURE FUTURE seq ap av bp bv self
  = reconcile (nth 0 bp 0) (nth 0 ap 0)
      (fst (scale_volumes (position self) balance
              (base_bid_volume (position self)) (base_ask_volume (position self))))
      (snd (scale_volumes (position self) balance
              (base_bid_volume (position self)) (base_ask_volume (position self))))
      self.
Proof.
  intros Hs. pose proof (assess_Ok_lengths _ _ _ _ _ Hs) as (H1 & _ & H3 & _).
  unfold on_order_book_update_message. rewrite Z.eqb_refl.
  destruct bp as [|b0 bp]; [cbn in H3; lia |].
  destruct ap as [|a0 ap]; [cbn in H1; lia |].
  cbn [index nth_error nth]. rewrite bind_lift_Ok, bind_lift_Ok, bind_get, Hs, bind_lift_Ok.
  destruct (scale_volumes _ _ _ _) as [v w]; cbn [fst snd].
  assert (Hp : forall x, (if negb (x =? 0) then x else 0) = x)
    by (intros x; destruct (x =? 0) eqn:E; cbn; [apply Z.eqb_eq in E; lia | reflexivity]).
  rewrite !Hp. reflexivity.
Qed.

(** The instructions of a tick, in full: those of the reconciliation when
    the instrument is the traded one and the score is computed, none
    otherwise. *)
Lemma tick_sent FUTURE instrument seq ap av bp bv self :
  sent (on_order_book_update_message FUTURE instrument seq ap av bp bv self)
  = match assess_market_balance ap av bp bv with
    | Ok balance =>
        if instrument =? FUTURE
        then expected_instructions self (nth 0 bp 0) (nth 0 ap 0)
               (fst (scale_volumes (position self) balance
                       (base_bid_volume (position self)) (base_ask_volume (position self))))
               (snd (scale_volumes (position self) balance
                       (base_bid_volume (position self)) (base_ask_volume (position self))))
        else []
    | Raise _ => []
    end.
Proof.
  destruct (assess_market_balance ap av bp bv) as [balance|e] eqn:Hs.
  - destruct (Z.eqb_spec instrument FUTURE) as [-> | Hi].
    + rewrite (tick_reconcile _ _ _ _ _ _ _ _ Hs). apply reconcile_sent_full.
    + unfold on_order_book_update_message. apply Z.eqb_neq in Hi. rewrite Hi. reflexivity.
  - destruct (tick_cases FUTURE instrument seq ap av bp bv self)
      as [[_ Ho] | (b0 & a0 & balance & _ & _ & _ & Hb & _)]; [exact Ho | congruence].
Qed.

(** A tick for another instrument, or one whose score is not computed,
    leaves the state as it was. *)
Lemma tick_idle FUTURE instrument seq ap av bp bv self :
  (instrument =? FUTURE) && score_computed ap av bp bv = false ->
  state_of (on_order_book_update_message FUTURE instrument seq ap av bp bv self) = self.
Proof.
  intros Hq.
  destruct (tick_cases FUTURE instrument seq ap av bp bv self)
    as [[Hs _] | (b0 & a0 & balance & -> & _ & _ & Hb & _)]; [exact Hs |].
  unfold score_computed in Hq. rewrite Z.eqb_refl, Hb in Hq. discriminate Hq.
Qed.

(** The volumes a tick quotes, with the multiplier of each side made
    explicit. *)
Lemma scale_volumes_multipliers position balance v w :
  scale_volumes position balance v w
  = (v * (if (position <=? 600) && (0 <? balance) then Z.min balance 2 else 1),
     w * (if (position <=? 600) && (balance <? 0) then Z.min (Z.abs balance) 2 else 1)).
Proof.
  rewrite scale_volumes_eq.
  destruct (position <=? 600); cbn [andb]; [| rewrite !Z.mul_1_r; reflexivity].
  destruct (0 <? balance) eqn:E1; [| destruct (balance <? 0) eqn:E2];
    rewrite ?Z.mul_1_r; try reflexivity.
  split_conditions. destruct (balance <? 0) eqn:E3; [split_conditions; lia |].
  rewrite Z.mul_1_r. reflexivity.
Qed.

Lemma expected_instructions_scaled_within self p q v w bid ask :
  bid <= v <= MARKET_BALANCE_LIMIT * bid ->
  ask <= w <= MARKET_BALANCE_LIMIT * ask ->
  Forall (scaled_within bid ask) (expected_instructions self p q v w).
Proof.
  intros Hv Hw. unfold expected_instructions. cbv zeta.
  repeat match goal with
         | |- context [if ?b then [_] else []] => destruct b
         end; cbn [app];
    repeat match goal with |- Forall _ _ => constructor end;
    first [exact Hv | exact Hw | exact I].
Qed.

Lemma ex_score_asks_heavy :
  assess_market_balance ex_ask_prices ex_heavy ex_bid_prices ex_empty = Ok 10.
Proof. vm_compute. reflexivity. Qed.

Lemma ex_score_bids_heavy :
  assess_market_balance ex_ask_prices ex_empty ex_bid_prices ex_heavy = Ok (-10).
Proof. vm_compute. reflexivity. Qed.

(** C2, as stated, fails: at position -700, outside the band
    |position| <= 600, a tick with a positive score still doubles the bid
    volume (380 is sent where the base volume is 190). *)
Lemma C2_counterexample :
  Z.abs (position (set_position (-700) init)) > POSITION_SOFT_LIMIT
  /\ base_bid_volume (-700) = 190
  /\ sent (on_order_book_update_message 0 0 1 ex_ask_prices ex_heavy ex_bid_prices ex_empty
             (set_position (-700) init))
     = [send_insert_order 1 BUY 10000 380 GOOD_FOR_DAY;
        send_insert_order 2 SELL 10100 10 GOOD_FOR_DAY]
  /\ scale_volumes (-700) 10 (base_bid_volume (-700)) (base_ask_volume (-700))
     <> (base_bid_volume (-700), base_ask_volume (-700)).
Proof.
  split; [cbn; unfold POSITION_SOFT_LIMIT; lia |].
  split; [reflexivity |].
  split; [vm_compute; reflexivity | vm_compute; discriminate].
Qed.

(** C2 (amended): imbalance scaling is applied exactly when the signed
    position is at most POSITION_SOFT_LIMIT (600).  On every tick of the
    tracked instrument whose score is computed, the reconciliation runs
    with the base volumes scaled by the clamped score on one side when
    position <= 600, and with the base volumes unchanged when
    position > 600. *)
Theorem C2_scaling_iff_position_le_soft_limit FUTURE seq ap av bp bv self balance :
  assess_market_balance ap av bp bv = Ok balance ->
  on_order_book_update_message FUTURE FUTURE seq ap av bp bv self
  = reconcile (nth 0 bp 0) (nth 0 ap 0)
      (if position self <=? 600
       then (if 0 <? balance
             then base_bid_volume (position self) * Z.min balance 2
             else base_bid_volume (position self))
       else base_bid_volume (position self))
      (if position self <=? 600
       then (if balance <? 0
             then base_ask_volume (position self) * Z.min (Z.abs balance) 2
             else base_ask_volume (position self))
       else base_ask_volume (position self))
      self.
Proof.
  intros Hs. rewrite (tick_reconcile _ _ _ _ _ _ _ _ Hs), scale_volumes_eq.
  destruct (position self <=? 600); [| reflexivity].
  destruct (0 <? balance) eqn:E1; [| destruct (balance <? 0) eqn:E2]; cbn [fst snd];
    try reflexivity.
  split_conditions. destruct (balance <? 0) eqn:E3; [split_conditions; lia | reflexivity].
Qed.

Lemma C2_witness :
  on_order_book_update_message 0 0 1 ex_ask_prices ex_heavy ex_bid_prices ex_empty
    (set_position 650 init)
  = reconcile (nth 0 ex_bid_prices 0) (nth 0 ex_ask_prices 0)
      (if position (set_position 650 init) <=? 600
       then (if 0 <? 10
             then base_bid_volume (position (set_position 650 init)) * Z.min 10 2
             else base_bid_volume (position (set_position 650 init)))
       else base_bid_volume (position (set_position 650 init)))
      (if position (set_position 650 init) <=? 600
       then (if 10 <? 0
             then base_ask_volume (position (set_position 650 init)) * Z.min (Z.abs 10) 2
             else base_ask_volume (position (set_position 650 init)))
       else base_ask_volume (position (set_position 650 init)))
      (set_position 650 init).
Proof.
  apply (C2_scaling_iff_position_le_soft_limit 0 1 ex_ask_prices ex_heavy ex_bid_prices
           ex_empty (set_position 650 init) 10).
  vm_compute. reflexivity.
Defined.

(** C3: whenever imbalance scaling applies, that is on a tick of the
    traded instrument whose score is computed while position <= 600, the
    instructions the tick sends carry the base volumes with the clamped
    score applied: a strictly positive score multiplies the bid volume by
    min(score, 2) and leaves the ask volume, a strictly negative score
    multiplies the ask volume by min(|score|, 2) and leaves the bid volume,
    and a zero score leaves both; so every insert sent carries at least
    the base volume of its side and at most MARKET_BALANCE_LIMIT (2) times
    that volume. *)
Theorem C3_clamped_multiplier FUTURE seq ap av bp bv self balance :
  assess_market_balance ap av bp bv = Ok balance ->
  position self <= POSITION_SOFT_LIMIT ->
  (0 < balance ->
   sent (on_order_book_update_message FUTURE FUTURE seq ap av bp bv self)
   = expected_instructions self (nth 0 bp 0) (nth 0 ap 0)
       (base_bid_volume (position self) * Z.min balance 2)
       (base_ask_volume (position self)))
  /\ (balance < 0 ->
      sent (on_order_book_update_message FUTURE FUTURE seq ap av bp bv self)
      = expected_instructions self (nth 0 bp 0) (nth 0 ap 0)
          (base_bid_volume (position self))
          (base_ask_volume (position self) * Z.min (Z.abs balance) 2))
  /\ (balance = 0 ->
      sent (on_order_book_update_message FUTURE FUTURE seq ap av bp bv self)
      = expected_instructions self (nth 0 bp 0) (nth 0 ap 0)
          (base_bid_volume (position self)) (base_ask_volume (position self)))
  /\ Forall (scaled_within (base_bid_volume (position self))
               (base_ask_volume (position self)))
       (sent (on_order_book_update_message FUTURE FUTURE seq ap av bp bv self)).
Proof.
  intros Hs Hp. rewrite tick_sent, Hs, Z.eqb_refl, scale_volumes_multipliers.
  unfold POSITION_SOFT_LIMIT in Hp. apply Z.leb_le in Hp. rewrite Hp. cbn [andb fst snd].
  pose proof (base_bid_volume_range (position self)) as Hb.
  pose proof (base_ask_volume_range (position self)) as Ha.
  split; [| split; [| split]].
  - intros H. destruct (Z.ltb_spec 0 balance); [| lia].
    destruct (Z.ltb_spec balance 0); [lia |]. rewrite Z.mul_1_r. reflexivity.
  - intros H. destruct (Z.ltb_spec 0 balance); [lia |].
    destruct (Z.ltb_spec balance 0); [| lia]. rewrite Z.mul_1_r. reflexivity.
  - intros ->. cbn. rewrite !Z.mul_1_r. reflexivity.
  - apply expected_instructions_scaled_within; unfold MARKET_BALANCE_LIMIT.
    + destruct (Z.ltb_spec 0 balance); [| lia].
      assert (Hm : Z.min balance 2 = 1 \/ Z.min balance 2 = 2) by lia.
      destruct Hm as [-> | ->]; lia.
    + destruct (Z.ltb_spec balance 0); [| lia].
      assert (Hm : Z.min (Z.abs balance) 2 = 1 \/ Z.min (Z.abs balance) 2 = 2) by lia.
      destruct Hm as [-> | ->]; lia.
Qed.

Lemma C3_witness :
  (0 < 10 ->
   sent (on_order_book_update_message 0 0 1 ex_ask_prices ex_heavy ex_bid_prices ex_empty init)
   = expected_instructions init (nth 0 ex_bid_prices 0) (nth 0 ex_ask_prices 0)
       (base_bid_volume (position init) * Z.min 10 2)
       (base_ask_volume (position init)))
  /\ (10 < 0 ->
      sent (on_order_book_update_message 0 0 1 ex_ask_prices ex_heavy ex_bid_prices ex_empty init)
      = expected_instructions init (nth 0 ex_bid_prices 0) (nth 0 ex_ask_prices 0)
          (base_bid_volume (position init))
          (base_ask_volume (position init) * Z.min (Z.abs 10) 2))
  /\ (10 = 0 ->
      sent (on_order_book_update_message 0 0 1 ex_ask_prices ex_heavy ex_bid_prices ex_empty init)
      = expected_instructions init (nth 0 ex_bid_prices 0) (nth 0 ex_ask_prices 0)
          (base_bid_volume (position init)) (base_ask_volume (position init)))
  /\ Forall (scaled_within (base_bid_volume (position init))
               (base_ask_volume (position init)))
       (sent (on_order_book_update_message 0 0 1 ex_ask_prices ex_heavy ex_bid_prices
                ex_empty init)).
Proof.
  apply (C3_clamped_multiplier 0 1 ex_ask_prices ex_heavy ex_bid_prices ex_empty init 10).
  - vm_compute. reflexivity.
  - unfold POSITION_SOFT_LIMIT. cbn. lia.
Defined.

(** C6: on every tick the base bid volume is LOT (10) when position > 0
    and otherwise clamp(|position|, 10, 190) = min(max(10, |position|), 190);
    the base ask volume is LOT when position < 0 and otherwise the same
    clamp.  These are the volumes the tick goes on to quote: the
    instructions of every tick of the traded instrument whose score is
    computed carry them, each times the multiplier of its side (1 unless
    the score scales that side), and a tick that stops before (the score
    raises, another instrument) sends nothing. *)
Theorem C6_base_volumes FUTURE instrument seq ap av bp bv self :
  base_bid_volume (position self)
  = (if decide (position self > 0) then 10
     else clamp (Z.abs (position self)) LOT_SIZE (VOLUME_LIMIT - LOT_SIZE))
  /\ base_ask_volume (position self)
     = (if decide (position self < 0) then 10
        else clamp (Z.abs (position self)) LOT_SIZE (VOLUME_LIMIT - LOT_SIZE))
  /\ clamp (Z.abs (position self)) LOT_SIZE (VOLUME_LIMIT - LOT_SIZE)
     = Z.min (Z.max 10 (Z.abs (position self))) 190
  /\ sent (on_order_book_update_message FUTURE instrument seq ap av bp bv self)
     = match assess_market_balance ap av bp bv with
       | Ok balance =>
           if instrument =? FUTURE
           then expected_instructions self (nth 0 bp 0) (nth 0 ap 0)
                  ((if decide (position self > 0) then 10
                    else Z.min (Z.max 10 (Z.abs (position self))) 190)
                   * (if (position self <=? 600) && (0 <? balance)
                      then Z.min balance 2 else 1))
                  ((if decide (position self < 0) then 10
                    else Z.min (Z.max 10 (Z.abs (position self))) 190)
                   * (if (position self <=? 600) && (balance <? 0)
                      then Z.min (Z.abs balance) 2 else 1))
           else []
       | Raise _ => []
       end.
Proof.
  assert (Hb : base_bid_volume (position self)
               = if decide (position self > 0) then 10
                 else Z.min (Z.max 10 (Z.abs (position self))) 190).
  { unfold base_bid_volume, LOT_SIZE, VOLUME_LIMIT.
    destruct (decide (position self > 0)), (position self >? 0) eqn:E;
      split_conditions; lia. }
  assert (Ha : base_ask_volume (position self)
               = if decide (position self < 0) then 10
                 else Z.min (Z.max 10 (Z.abs (position self))) 190).
  { unfold base_ask_volume, LOT_SIZE, VOLUME_LIMIT.
    destruct (decide (position self < 0)), (position self <? 0) eqn:E;
      split_conditions; lia. }
  assert (Hc : clamp (Z.abs (position self)) LOT_SIZE (VOLUME_LIMIT - LOT_SIZE)
               = Z.min (Z.max 10 (Z.abs (position self))) 190)
    by (unfold clamp, LOT_SIZE, VOLUME_LIMIT; lia).
  split; [rewrite Hc; exact Hb |]. split; [rewrite Hc; exact Ha |]. split; [exact Hc |].
  rewrite tick_sent.
  destruct (assess_market_balance ap av bp bv) as [balance|e]; [| reflexivity].
  destruct (instrument =? FUTURE); [| reflexivity].
  rewrite scale_volumes_multipliers, Hb, Ha. reflexivity.
Qed.

(** ** Fills and status notifications *)

Lemma status_zero_state id fv fees self :
  state_of (on_order_status_message id fv 0 fees self)
  = set_asks (asks self ∖ {[id]})
      (set_bids (bids self ∖ {[id]})
         (if id =? bid_id self then set_bid_id 0 self
          else if id =? ask_id self then set_ask_id 0 self else self)).
Proof.
  unfold on_order_status_message, state_of. cbn [Z.eqb]. rewrite bind_get.
  destruct (id =? bid_id self); [| destruct (id =? ask_id self)]; reflexivity.
Qed.

Lemma status_sent_outcome id fv rv fees self :
  sent (on_order_status_message id fv rv fees self) = []
  /\ outcome (on_order_status_message id fv rv fees self) = Ok tt.
Proof.
  unfold on_order_status_message, sent, outcome.
  destruct (rv =? 0); [| split; reflexivity]. rewrite bind_get.
  destruct (id =? bid_id self); [| destruct (id =? ask_id self)]; split; reflexivity.
Qed.

(** C8: in every reachable state, delivering a status notification with
    remaining_volume = 0 for an identifier a second time changes nothing:
    the state after two deliveries is the state after one (bid_id, ask_id,
    bids, asks and all other attributes), and the second delivery sends
    nothing and raises nothing. *)
Theorem C8_status_idempotent FUTURE decodes self id fv fees :
  reachable FUTURE decodes self ->
  state_of (on_order_status_message id fv 0 fees
              (state_of (on_order_status_message id fv 0 fees self)))
  = state_of (on_order_status_message id fv 0 fees self)
  /\ sent (on_order_status_message id fv 0 fees
             (state_of (on_order_status_message id fv 0 fees self))) = []
  /\ outcome (on_order_status_message id fv 0 fees
                (state_of (on_order_status_message id fv 0 fees self))) = Ok tt.
Proof.
  intros Hr. apply reachable_ledger_ok in Hr. destruct Hr as [_ _ _ Hdist _ _ _].
  split; [| apply status_sent_outcome].
  rewrite !status_zero_state. destruct self as [n B A ai ap bi bp pos]; cbn in *.
  unfold set_asks, set_bids, set_bid_id, set_ask_id; cbn.
  repeat match goal with
         | |- context [?a =? ?b] => destruct (Z.eqb_spec a b); cbn
         end.
  all: try (exfalso; lia).
  all: cbn in *; f_equal; try lia.
  all: apply set_eq; intros x; rewrite !elem_of_difference; tauto.
Qed.

Lemma C8_witness :
  state_of (on_order_status_message 1 20 0 0
              (state_of (on_order_status_message 1 20 0 0 ex_quoting)))
  = state_of (on_order_status_message 1 20 0 0 ex_quoting)
  /\ sent (on_order_status_message 1 20 0 0
             (state_of (on_order_status_message 1 20 0 0 ex_quoting))) = []
  /\ outcome (on_order_status_message 1 20 0 0
                (state_of (on_order_status_message 1 20 0 0 ex_quoting))) = Ok tt.
Proof.
  apply (C8_status_idempotent 0 (fun _ => true) ex_quoting 1 20 0).
  exact (reachable_step 0 (fun _ => true) init
           (OrderBookUpdate 0 1 ex_ask_prices ex_heavy ex_bid_prices ex_empty)
           (reachable_init 0 (fun _ => true))).
Defined.

Lemma filled_result id price volume self :
  on_order_filled_message id price volume self
  = (Ok tt,
     (if decide (id ∈ bids self) then set_position (position self + volume) self
      else if decide (id ∈ asks self) then set_position (position self - volume) self
      else self),
     []).
Proof.
  unfold on_order_filled_message. rewrite bind_get.
  destruct (decide (id ∈ bids self)); [| destruct (decide (id ∈ asks self))]; reflexivity.
Qed.

(** C9: in every reachable state a fill notification raises nothing and
    sends nothing; it adds the volume to the position when the identifier
    is a tracked buy order, subtracts it when the identifier is a tracked
    sell order, and changes nothing when the identifier is tracked on
    neither side.  The fill never touches the ledger (bid_id, ask_id,
    prices, bids, asks): the order stays tracked until a status with
    remaining volume 0 removes it. *)
Theorem C9_fill_updates_position_only FUTURE decodes self id price volume :
  reachable FUTURE decodes self ->
  outcome (on_order_filled_message id price volume self) = Ok tt
  /\ sent (on_order_filled_message id price volume self) = []
  /\ (id ∈ bids self ->
      position (state_of (on_order_filled_message id price volume self))
      = position self + volume)
  /\ (id ∈ asks self ->
      position (state_of (on_order_filled_message id price volume self))
      = position self - volume)
  /\ (id ∉ bids self -> id ∉ asks self ->
      state_of (on_order_filled_message id price volume self) = self)
  /\ state_of (on_order_filled_message id price volume self)
     = set_position (position (state_of (on_order_filled_message id price volume self))) self
  /\ (forall fv fees,
        (id ∉ bids (state_of (on_order_status_message id fv 0 fees
                      (state_of (on_order_filled_message id price volume self)))))
        /\ (id ∉ asks (state_of (on_order_status_message id fv 0 fees
                         (state_of (on_order_filled_message id price volume self)))))).
Proof.
  intros Hr. apply reachable_ledger_ok in Hr. destruct Hr as [_ _ _ _ _ _ Hdisj].
  assert (Hst : forall s fv fees,
             (id ∉ bids (state_of (on_order_status_message id fv 0 fees s)))
             /\ (id ∉ asks (state_of (on_order_status_message id fv 0 fees s)))).
  { intros s fv fees. rewrite status_zero_state. cbn.
    split; intros H; apply elem_of_difference in H as [_ H];
      apply H, elem_of_singleton; reflexivity. }
  rewrite filled_result. unfold outcome, sent, state_of. cbn [fst snd].
  split; [reflexivity |]. split; [reflexivity |].
  destruct (decide (id ∈ bids self)) as [Hb | Hb];
    [| destruct (decide (id ∈ asks self)) as [Ha | Ha]].
  - repeat split; try reflexivity; try tauto; try apply Hst.
    intros Ha. exfalso. exact (Hdisj id Hb Ha).
  - repeat split; try reflexivity; try tauto; try apply Hst.
  - repeat split; try reflexivity; try tauto; try apply Hst.
    destruct self; reflexivity.
Qed.

Lemma C9_witness :
  outcome (on_order_filled_message 1 10000 20 ex_quoting) = Ok tt
  /\ sent (on_order_filled_message 1 10000 20 ex_quoting) = []
  /\ (1 ∈ bids ex_quoting ->
      position (state_of (on_order_filled_message 1 10000 20 ex_quoting))
      = position ex_quoting + 20)
  /\ (1 ∈ asks ex_quoting ->
      position (state_of (on_order_filled_message 1 10000 20 ex_quoting))
      = position ex_quoting - 20)
  /\ (1 ∉ bids ex_quoting -> 1 ∉ asks ex_quoting ->
      state_of (on_order_filled_message 1 10000 20 ex_quoting) = ex_quoting)
  /\ state_of (on_order_filled_message 1 10000 20 ex_quoting)
     = set_position (position (state_of (on_order_filled_message 1 10000 20 ex_quoting)))
         ex_quoting
  /\ (forall fv fees,
        (1 ∉ bids (state_of (on_order_status_message 1 fv 0 fees
                     (state_of (on_order_filled_message 1 10000 20 ex_quoting)))))
        /\ (1 ∉ asks (state_of (on_order_status_message 1 fv 0 fees
                        (state_of (on_order_filled_message 1 10000 20 ex_quoting)))))).
Proof.
  apply (C9_fill_updates_position_only 0 (fun _ => true) ex_quoting 1 10000 20).
  exact (reachable_step 0 (fun _ => true) init
           (OrderBookUpdate 0 1 ex_ask_prices ex_heavy ex_bid_prices ex_empty)
           (reachable_init 0 (fun _ => true))).
Defined.

(** ** The volume of an insert *)

Lemma sell_rounds_run FUTURE decodes :
  run FUTURE decodes (sell_rounds FUTURE) init
  = run 0 (fun _ => true) (sell_rounds 0) init.
Proof.
  unfold sell_rounds, sell_round, run. cbn [app fold_left handle].
  rewrite !(tick_FUTURE_eq FUTURE). reflexivity.
Qed.

Lemma tick_insert_volume_le FUTURE instrument seq ap av bp bv self i :
  In i (sent (on_order_book_update_message FUTURE instrument seq ap av bp bv self)) ->
  volume_of i <= 380.
Proof.
  destruct (tick_cases FUTURE instrument seq ap av bp bv self)
    as [[_ Ho] | (b0 & a0 & balance & _ & _ & _ & _ & Ht)].
  - rewrite Ho. intros [].
  - rewrite Ht. intros Hi.
    pose proof (reconcile_insert_volumes self b0 a0
                  (fst (scale_volumes (position self) balance
                          (base_bid_volume (position self)) (base_ask_volume (position self))))
                  (snd (scale_volumes (position self) balance
                          (base_bid_volume (position self)) (base_ask_volume (position self)))))
      as Hv.
    unfold insert_volumes in Hv. rewrite Forall_forall in Hv. specialize (Hv i).
    pose proof (scale_volumes_range (position self) balance _ _
                  (base_bid_volume_range (position self))
                  (base_ask_volume_range (position self))) as [Hb Ha].
    destruct i as [id | id [|] price volume l]; cbn.
    + lia.
    + assert (volume = snd (scale_volumes (position self) balance
                (base_bid_volume (position self)) (base_ask_volume (position self)))).
      { apply Hv. apply list_elem_of_In. exact Hi. }
      lia.
    + assert (volume = fst (scale_volumes (position self) balance
                (base_bid_volume (position self)) (base_ask_volume (position self)))).
      { apply Hv. apply list_elem_of_In. exact Hi. }
      lia.
Qed.

(** C10: every insert the engine sends has volume at most
    MARKET_BALANCE_LIMIT * (VOLUME_LIMIT - LOT_SIZE) = 380; and some
    reachable state and snapshot make it send an insert of more than
    VOLUME_LIMIT (200) lots: after six rounds of selling 20 lots the
    position is -120, and a tick with heavy asks and a new best bid sends
    a bid of 240 lots.  The cap of VOLUME_LIMIT - LOT_SIZE is applied
    before the scaling, not after. *)
Theorem C10_insert_volume_bound_and_breach :
  MARKET_BALANCE_LIMIT * (VOLUME_LIMIT - LOT_SIZE) = 380
  /\ (forall FUTURE instrument seq ap av bp bv self i,
        In i (sent (on_order_book_update_message FUTURE instrument seq ap av bp bv self)) ->
        volume_of i <= 380)
  /\ (forall FUTURE decodes,
        exists self seq ap av bp bv i,
          reachable FUTURE decodes self
          /\ In i (sent (on_order_book_update_message FUTURE FUTURE seq ap av bp bv self))
          /\ is_insert i = true
          /\ VOLUME_LIMIT < volume_of i).
Proof.
  split; [reflexivity |]. split.
  - intros. eapply tick_insert_volume_le; eassumption.
  - intros FUTURE decodes.
    exists (run FUTURE decodes (sell_rounds FUTURE) init), 8,
      ex_ask_prices, ex_heavy, [10010; 9900; 9800; 0; 0], ex_empty,
      (send_insert_order 8 BUY 10010 240 GOOD_FOR_DAY).
    split; [apply reachable_run; constructor |].
    rewrite sell_rounds_run, (tick_FUTURE_eq FUTURE).
    split; [| split; [reflexivity | unfold VOLUME_LIMIT; cbn; lia]].
    vm_compute. right. left. reflexivity.
Qed.

(** ** Rounding error of the float operations *)

(** Every operation of [SpecFloat] used by the score returns a float whose
    value is within [2 ^ (M + 1)] of the exact result, where [M] bounds the
    exponent of the result; the bound follows the shifts and the rounding
    of [binary_round_aux] on the real line. *)

Section FloatBounds.

#[local] Open Scope R_scope.

Lemma bpow_pos e : 0 < bpow e.
Proof. apply powerRZ_lt. lra. Qed.

Lemma bpow_add a b : bpow (a + b) = bpow a * bpow b.
Proof. apply powerRZ_add. lra. Qed.

Lemma bpow_succ e : bpow (e + 1) = 2 * bpow e.
Proof. rewrite bpow_add. unfold bpow at 2. simpl. lra. Qed.

Lemma bpow_0 : bpow 0 = 1.
Proof. reflexivity. Qed.

Lemma bpow_le a b : (a <= b)%Z -> bpow a <= bpow b.
Proof.
  intros H. replace b with (a + (b - a))%Z by lia. rewrite bpow_add.
  assert (1 <= bpow (b - a)).
  { assert (Hn : (0 <= b - a)%Z) by lia. revert Hn. generalize (b - a)%Z.
    intros n Hn. pattern n. apply natlike_ind; [rewrite bpow_0; lra | | exact Hn].
    intros x Hx IH. unfold Z.succ. rewrite bpow_succ. lra. }
  pose proof (bpow_pos a). nra.
Qed.

Lemma bpow_IZR n : (0 <= n)%Z -> bpow n = IZR (2 ^ n).
Proof.
  intros Hn. pattern n. apply natlike_ind; [reflexivity | | exact Hn].
  intros x Hx IH. unfold Z.succ. rewrite bpow_succ, IH, Z.pow_add_r, mult_IZR by lia.
  simpl (2 ^ 1)%Z. lra.
Qed.

Lemma bpow_opp e : bpow (- e) = / bpow e.
Proof. apply powerRZ_neg'. Qed.

(** The number of binary digits of a mantissa. *)
Lemma digits2_pos_bounds p :
  (2 ^ (Zpos (digits2_pos p) - 1) <= Zpos p < 2 ^ Zpos (digits2_pos p))%Z.
Proof.
  induction p as [p IH | p IH |]; cbn [digits2_pos].
  - rewrite Pos2Z.inj_succ. replace (Z.succ (Zpos (digits2_pos p)) - 1)%Z with (Zpos (digits2_pos p) - 1 + 1)%Z by lia.
    unfold Z.succ. rewrite !Z.pow_add_r by lia. change (2 ^ 1)%Z with 2%Z. lia.
  - rewrite Pos2Z.inj_succ. replace (Z.succ (Zpos (digits2_pos p)) - 1)%Z with (Zpos (digits2_pos p) - 1 + 1)%Z by lia.
    unfold Z.succ. rewrite !Z.pow_add_r by lia. change (2 ^ 1)%Z with 2%Z. lia.
  - cbn. lia.
Qed.

Lemma Zdigits2_bounds m : (0 < m)%Z ->
  bpow (Zdigits2 m - 1) <= IZR m < bpow (Zdigits2 m).
Proof.
  intros Hm. destruct m as [|p|p]; try lia. cbn [Zdigits2].
  pose proof (digits2_pos_bounds p) as [H1 H2].
  rewrite !bpow_IZR by lia. split; [apply IZR_le | apply IZR_lt]; assumption.
Qed.

(** A bound on the value bounds the digits. *)
Lemma Zdigits2_le m e k : (0 < m)%Z -> IZR m * bpow e < bpow k -> (Zdigits2 m + e <= k)%Z.
Proof.
  intros Hm Hx. pose proof (Zdigits2_bounds m Hm) as [H1 _].
  destruct (Z_lt_le_dec k (Zdigits2 m + e)) as [Hlt|]; [exfalso | assumption].
  assert (bpow k <= bpow (Zdigits2 m - 1 + e)) by (apply bpow_le; lia).
  rewrite bpow_add in H. pose proof (bpow_pos e). nra.
Qed.

Lemma inbetween_bounds m e l x :
  inbetween m e l x -> IZR m * bpow e <= x < (IZR m + 1) * bpow e.
Proof.
  pose proof (bpow_pos e). destruct l as [|[]]; cbn; intros; nra.
Qed.

(** Shifting right keeps the place of [x]. *)
Lemma shr_1_loc mrs e x : shr_loc mrs e x -> shr_loc (shr_1 mrs) (e + 1) x.
Proof.
  unfold shr_loc. destruct mrs as [m r s]. cbn [shr_m].
  intros [Hm Hx]. pose proof (bpow_pos e) as He.
  destruct m as [|[p|p|]|p]; try lia; cbn [shr_1 shr_m]; (split; [lia |]);
    destruct r, s; cbn in Hx |- *; rewrite bpow_succ;
    try rewrite (Pos2Z.inj_xI p) in Hx; try rewrite (Pos2Z.inj_xO p) in Hx;
    try rewrite plus_IZR in Hx; try rewrite mult_IZR in Hx; nra.
Qed.

Lemma iter_shr_1_loc p : forall mrs e x,
  shr_loc mrs e x -> shr_loc (SpecFloat.iter_pos shr_1 p mrs) (e + Zpos p) x.
Proof.
  induction p as [p IH | p IH |]; intros mrs e x H; cbn [SpecFloat.iter_pos].
  - replace (e + Zpos p~1)%Z with (e + 1 + Zpos p + Zpos p)%Z by lia.
    apply IH, IH, shr_1_loc, H.
  - replace (e + Zpos p~0)%Z with (e + Zpos p + Zpos p)%Z by lia.
    apply IH, IH, H.
  - apply shr_1_loc, H.
Qed.

Lemma shr_loc_shr mrs e n x :
  shr_loc mrs e x ->
  shr_loc (fst (shr mrs e n)) (snd (shr mrs e n)) x
  /\ snd (shr mrs e n) = Z.max e (e + n).
Proof.
  intros H. destruct n as [|p|p]; cbn [shr fst snd].
  - split; [exact H | lia].
  - split; [apply iter_shr_1_loc, H | lia].
  - split; [exact H | lia].
Qed.

Lemma shr_record_of_loc_loc m l e x :
  (0 <= m)%Z -> inbetween m e l x -> shr_loc (shr_record_of_loc m l) e x.
Proof.
  intros Hm Hx. unfold shr_loc. destruct l as [|[]]; cbn; auto.
Qed.

(** Rounding to nearest moves by at most half a unit. *)
Lemma round_nearest_even_bound m e l x :
  (0 <= m)%Z -> inbetween m e l x ->
  (m <= round_nearest_even m l <= m + 1)%Z
  /\ x - bpow e / 2 <= IZR (round_nearest_even m l) * bpow e <= x + bpow e / 2.
Proof.
  intros Hm Hx. pose proof (bpow_pos e) as He.
  destruct l as [|[]]; cbn [round_nearest_even] in *; cbn in Hx.
  - split; [lia |]. subst x. lra.
  - destruct (Z.even m); (split; [lia |]); try rewrite plus_IZR; subst x; nra.
  - split; [lia |]. nra.
  - split; [lia |]. rewrite plus_IZR. nra.
Qed.

Lemma fexp_le d k M :
  (d <= k + 1)%Z -> (-1074 <= M)%Z -> (k - 52 <= M)%Z -> (fexp 53 1024 d <= M)%Z.
Proof. unfold fexp, emin. lia. Qed.

Lemma Zdigits2_exp_le m e k :
  (0 <= m)%Z -> (e <= k)%Z -> IZR m * bpow e < bpow k -> (Zdigits2 m + e <= k)%Z.
Proof.
  intros Hm He Hx. destruct (Z.eq_dec m 0%Z) as [-> | Hn]; [cbn; lia |].
  apply Zdigits2_le; [lia | exact Hx].
Qed.

(** The rounding of [x], located by [mx], [ex] and [lx] and below [2 ^ k]. *)
Lemma binary_round_aux_bound s mx ex lx x M k :
  (0 <= mx)%Z -> inbetween mx ex lx x -> x < bpow k ->
  (ex <= M)%Z -> (-1074 <= M)%Z -> (k - 52 <= M)%Z -> (M <= k)%Z -> (M <= 971)%Z ->
  fin_le M (binary_round_aux 53 1024 s mx ex lx)
  /\ near (SF2R (binary_round_aux 53 1024 s mx ex lx)) (if s then - x else x)
       (bpow (M + 1)).
Proof.
  intros Hmx Hx Hk HeM HM1 HM2 HM3 HM4.
  pose proof (inbetween_bounds _ _ _ _ Hx) as [Hx0 _].
  assert (Hxpos : 0 <= x).
  { pose proof (bpow_pos ex). pose proof (IZR_le _ _ Hmx). nra. }
  assert (Hd1 : (Zdigits2 mx + ex <= k)%Z).
  { apply Zdigits2_exp_le; [assumption | lia | lra]. }
  unfold binary_round_aux, shr_fexp.
  destruct (shr_loc_shr (shr_record_of_loc mx lx) ex
              (fexp 53 1024 (Zdigits2 mx + ex) - ex) x
              (shr_record_of_loc_loc _ _ _ _ Hmx Hx)) as [[Hm1 Hx1] He1].
  destruct (shr (shr_record_of_loc mx lx) ex _) as [mrs1 e1]. cbn [fst snd] in *.
  assert (He1M : (e1 <= M)%Z).
  { pose proof (fexp_le (Zdigits2 mx + ex) k M). lia. }
  destruct (round_nearest_even_bound _ _ _ _ Hm1 Hx1) as [Hm2 Hy].
  set (m2 := round_nearest_even (shr_m mrs1) (loc_of_shr_record mrs1)) in *.
  pose proof (inbetween_bounds _ _ _ _ Hx1) as [Hx1a Hx1b].
  pose proof (bpow_pos e1) as Hbe1.
  pose proof (bpow_le e1 M He1M) as Hbe1M.
  pose proof (bpow_le M k HM3) as HbMk.
  assert (Hm2R : IZR m2 <= IZR (shr_m mrs1) + 1).
  { rewrite <- plus_IZR. apply IZR_le. lia. }
  assert (Hm2pos : 0 <= IZR m2) by (apply IZR_le; lia).
  assert (Hyk : IZR m2 * bpow e1 < bpow (k + 1)).
  { rewrite bpow_succ. nra. }
  assert (Hd2 : (Zdigits2 m2 + e1 <= k + 1)%Z).
  { apply Zdigits2_exp_le; [lia | lia | exact Hyk]. }
  assert (Hexact : inbetween m2 e1 loc_Exact (IZR m2 * bpow e1)) by reflexivity.
  assert (Hm2nn : (0 <= m2)%Z) by lia.
  destruct (shr_loc_shr (shr_record_of_loc m2 loc_Exact) e1
              (fexp 53 1024 (Zdigits2 m2 + e1) - e1) _
              (shr_record_of_loc_loc _ _ _ _ Hm2nn Hexact)) as [[Hm3 Hy3] He3].
  destruct (shr (shr_record_of_loc m2 loc_Exact) e1 _) as [mrs3 e3]. cbn [fst snd] in *.
  assert (He3M : (e3 <= M)%Z).
  { pose proof (fexp_le (Zdigits2 m2 + e1) k M). lia. }
  pose proof (inbetween_bounds _ _ _ _ Hy3) as [Hy3a Hy3b].
  pose proof (bpow_pos e3) as Hbe3.
  pose proof (bpow_le e3 M He3M) as Hbe3M.
  pose proof (bpow_succ M) as HbM1.
  destruct (shr_m mrs3) as [|m3|m3] eqn:Em3; [| | lia].
  - split; [exact I |]. unfold near. cbn [SF2R]. destruct s; nra.
  - change (1024 - 53)%Z with 971%Z.
    destruct (Z.leb_spec e3 971); [| lia].
    split; [exact He3M |]. unfold near. cbn [SF2R]. destruct s; nra.
Qed.

Lemma Pos_iter_xO m d : Zpos (Pos.iter xO m d) = (Zpos m * 2 ^ Zpos d)%Z.
Proof.
  induction d as [|d IH] using Pos.peano_ind.
  - cbn. lia.
  - rewrite Pos.iter_succ, Pos2Z.inj_xO, IH, Pos2Z.inj_succ, Z.pow_succ_r by lia. lia.
Qed.

Lemma shl_align_spec mx ex ex' :
  IZR (Zpos (fst (shl_align mx ex ex'))) * bpow (snd (shl_align mx ex ex'))
  = IZR (Zpos mx) * bpow ex
  /\ snd (shl_align mx ex ex') = Z.min ex ex'.
Proof.
  unfold shl_align. destruct (ex' - ex)%Z as [|d|d] eqn:E; cbn [fst snd].
  - split; [reflexivity | lia].
  - split; [reflexivity | lia].
  - split; [| lia].
    rewrite Pos_iter_xO, mult_IZR, <- bpow_IZR by lia.
    replace ex with (Zpos d + ex')%Z by lia. rewrite bpow_add. ring.
Qed.

Lemma binary_round_bound s mx ex M k :
  IZR (Zpos mx) * bpow ex < bpow k ->
  (-1074 <= M)%Z -> (k - 52 <= M)%Z -> (M <= k)%Z -> (M <= 971)%Z ->
  fin_le M (binary_round 53 1024 s mx ex)
  /\ near (SF2R (binary_round 53 1024 s mx ex))
       (if s then - (IZR (Zpos mx) * bpow ex) else IZR (Zpos mx) * bpow ex)
       (bpow (M + 1)).
Proof.
  intros Hk HM1 HM2 HM3 HM4. unfold binary_round.
  assert (Hd : (Zpos (digits2_pos mx) + ex <= k)%Z).
  { apply (Zdigits2_le (Zpos mx) ex k); [lia | exact Hk]. }
  destruct (shl_align_spec mx ex (fexp 53 1024 (Zpos (digits2_pos mx) + ex))) as [Hv He].
  destruct (shl_align mx ex _) as [mz ez]. cbn [fst snd] in *.
  rewrite <- Hv. apply (binary_round_aux_bound s (Zpos mz) ez loc_Exact _ M k); try lia.
  - reflexivity.
  - rewrite Hv. exact Hk.
  - pose proof (fexp_le (Zpos (digits2_pos mx) + ex) k M). lia.
Qed.

Lemma binary_normalize_bound z e M k :
  - bpow k < IZR z * bpow e < bpow k ->
  (-1074 <= M)%Z -> (k - 52 <= M)%Z -> (M <= k)%Z -> (M <= 971)%Z ->
  fin_le M (binary_normalize 53 1024 z e false)
  /\ near (SF2R (binary_normalize 53 1024 z e false)) (IZR z * bpow e) (bpow (M + 1)).
Proof.
  intros Hk HM1 HM2 HM3 HM4. pose proof (bpow_pos (M + 1)).
  destruct z as [|p|p]; cbn [binary_normalize].
  - split; [exact I |]. unfold near. cbn [SF2R]. lra.
  - apply (binary_round_bound false p e M k); try lia. lra.
  - change (Zneg p) with (- Zpos p)%Z. rewrite opp_IZR.
    replace (- IZR (Zpos p) * bpow e) with (- (IZR (Zpos p) * bpow e)) by ring.
    apply (binary_round_bound true p e M k); try lia.
    change (Zneg p) with (- Zpos p)%Z in Hk. rewrite opp_IZR in Hk. lra.
Qed.

Lemma fin_le_mono M M' f : (M <= M')%Z -> fin_le M f -> fin_le M' f.
Proof. destruct f; cbn; auto. lia. Qed.

Lemma SFmul_bound f1 f2 M1 M2 M k :
  fin_le M1 f1 -> fin_le M2 f2 ->
  - bpow k < SF2R f1 * SF2R f2 < bpow k ->
  (M1 + M2 <= M)%Z ->
  (-1074 <= M)%Z -> (k - 52 <= M)%Z -> (M <= k)%Z -> (M <= 971)%Z ->
  fin_le M (SFmul 53 1024 f1 f2)
  /\ near (SF2R (SFmul 53 1024 f1 f2)) (SF2R f1 * SF2R f2) (bpow (M + 1)).
Proof.
  intros H1 H2 Hk HM HM1 HM2 HM3 HM4. pose proof (bpow_pos (M + 1)).
  destruct f1 as [s1| | |s1 m1 e1], f2 as [s2| | |s2 m2 e2]; cbn in H1, H2; try contradiction;
    cbn [SFmul].
  1-3: split; [exact I | cbn [SF2R]; unfold near; lra].
  assert (Hv : SF2R (S754_finite s1 m1 e1) * SF2R (S754_finite s2 m2 e2)
               = if xorb s1 s2 then - (IZR (Zpos (m1 * m2)) * bpow (e1 + e2))
                 else IZR (Zpos (m1 * m2)) * bpow (e1 + e2)).
  { cbn [SF2R]. rewrite Pos2Z.inj_mul, mult_IZR, bpow_add. destruct s1, s2; cbn; ring. }
  rewrite Hv in *.
  apply (binary_round_aux_bound _ _ _ loc_Exact _ M k); try lia.
  - reflexivity.
  - destruct (xorb s1 s2); lra.
Qed.

Lemma aligned_value s m e ez :
  (ez <= e)%Z ->
  IZR (cond_Zopp s (Zpos (fst (shl_align m e ez)))) * bpow ez = SF2R (S754_finite s m e).
Proof.
  intros He. destruct (shl_align_spec m e ez) as [Hv Hs].
  rewrite Z.min_r in Hs by lia. rewrite Hs in Hv.
  cbn [SF2R]. destruct s; cbn [cond_Zopp].
  - rewrite opp_IZR. lra.
  - lra.
Qed.

Lemma SFadd_bound f1 f2 M0 M k :
  fin_le M0 f1 -> fin_le M0 f2 -> (M0 <= M)%Z ->
  - bpow k < SF2R f1 + SF2R f2 < bpow k ->
  (-1074 <= M)%Z -> (k - 52 <= M)%Z -> (M <= k)%Z -> (M <= 971)%Z ->
  fin_le M (SFadd 53 1024 f1 f2)
  /\ near (SF2R (SFadd 53 1024 f1 f2)) (SF2R f1 + SF2R f2) (bpow (M + 1)).
Proof.
  intros H1 H2 H0 Hk HM1 HM2 HM3 HM4. pose proof (bpow_pos (M + 1)).
  destruct f1 as [s1| | |s1 m1 e1], f2 as [s2| | |s2 m2 e2]; cbn in H1, H2; try contradiction;
    cbn [SFadd].
  - destruct s1, s2; split; try exact I; cbn [SF2R]; unfold near; lra.
  - split; [cbn; lia |]. cbn [SF2R]. unfold near. lra.
  - split; [cbn; lia |]. cbn [SF2R]. unfold near. lra.
  - rewrite <- (aligned_value s1 m1 e1 (Z.min e1 e2)), <- (aligned_value s2 m2 e2 (Z.min e1 e2)) in * by lia.
    rewrite <- Rmult_plus_distr_r, <- plus_IZR in *.
    apply (binary_normalize_bound _ _ M k); try lia. exact Hk.
Qed.

Lemma SFsub_bound f1 f2 M0 M k :
  fin_le M0 f1 -> fin_le M0 f2 -> (M0 <= M)%Z ->
  - bpow k < SF2R f1 - SF2R f2 < bpow k ->
  (-1074 <= M)%Z -> (k - 52 <= M)%Z -> (M <= k)%Z -> (M <= 971)%Z ->
  fin_le M (SFsub 53 1024 f1 f2)
  /\ near (SF2R (SFsub 53 1024 f1 f2)) (SF2R f1 - SF2R f2) (bpow (M + 1)).
Proof.
  intros H1 H2 H0 Hk HM1 HM2 HM3 HM4. pose proof (bpow_pos (M + 1)).
  destruct f1 as [s1| | |s1 m1 e1], f2 as [s2| | |s2 m2 e2]; cbn in H1, H2; try contradiction;
    cbn [SFsub].
  - destruct s1, s2; split; try exact I; cbn [SF2R]; unfold near; lra.
  - split; [cbn; lia |]. cbn [SF2R]. unfold near. destruct s2; cbn [negb]; lra.
  - split; [cbn; lia |]. cbn [SF2R]. unfold near. lra.
  - rewrite <- (aligned_value s1 m1 e1 (Z.min e1 e2)), <- (aligned_value s2 m2 e2 (Z.min e1 e2)) in * by lia.
    rewrite <- Rmult_minus_distr_r, <- minus_IZR in *.
    apply (binary_normalize_bound _ _ M k); try lia. exact Hk.
Qed.

(** The place of a quotient from its remainder. *)
Lemma new_location_inbetween q e m2 r :
  (0 <= r < m2)%Z ->
  inbetween q e (new_location m2 r) ((IZR q + IZR r / IZR m2) * bpow e).
Proof.
  intros Hr. pose proof (bpow_pos e) as He.
  assert (Hm2 : 0 < IZR m2) by (apply IZR_lt; lia).
  set (t := IZR r / IZR m2).
  assert (Ht : t * IZR m2 = IZR r) by (unfold t; field; lra).
  assert (Hr0 : 0 <= IZR r) by (apply IZR_le; lia).
  assert (Ht0 : 0 <= t) by nra.
  unfold new_location.
  destruct (Z.even m2) eqn:Ev.
  - unfold new_location_even. destruct (Z.eqb_spec r 0) as [-> | Hn].
    + cbn. assert (t = 0) by nra. nra.
    + assert (0 < IZR r) by (apply IZR_lt; lia).
      destruct (Z.compare_spec (2 * r) m2) as [E | E | E].
      * cbn. assert (2 * IZR r = IZR m2) by (rewrite <- E, mult_IZR; reflexivity).
        assert (t = / 2) by nra. nra.
      * cbn. apply IZR_lt in E. rewrite mult_IZR in E.
        assert (0 < t < / 2) by nra. nra.
      * cbn. apply IZR_lt in E. rewrite mult_IZR in E.
        assert (IZR r < IZR m2) by (apply IZR_lt; lia).
        assert (/ 2 < t < 1) by nra. nra.
  - unfold new_location_odd. destruct (Z.eqb_spec r 0) as [-> | Hn].
    + cbn. assert (t = 0) by nra. nra.
    + assert (0 < IZR r) by (apply IZR_lt; lia).
      assert (Hodd : (2 * r <> m2)%Z).
      { intros E. rewrite <- E, Z.even_mul in Ev. discriminate. }
      destruct (Z.compare_spec (2 * r + 1) m2) as [E | E | E].
      * cbn. assert (E' : (2 * r < m2)%Z) by lia.
        apply IZR_lt in E'. rewrite mult_IZR in E'.
        assert (0 < t < / 2) by nra. nra.
      * cbn. assert (E' : (2 * r < m2)%Z) by lia.
        apply IZR_lt in E'. rewrite mult_IZR in E'.
        assert (0 < t < / 2) by nra. nra.
      * cbn. assert (E' : (m2 < 2 * r)%Z) by lia.
        apply IZR_lt in E'. rewrite mult_IZR in E'.
        assert (IZR r < IZR m2) by (apply IZR_lt; lia).
        assert (/ 2 < t < 1) by nra. nra.
Qed.

Lemma SFdiv_core_binary_loc m1 e1 m2 e2 :
  (0 < m1)%Z -> (0 < m2)%Z ->
  (0 <= fst (fst (SFdiv_core_binary 53 1024 m1 e1 m2 e2)))%Z
  /\ inbetween (fst (fst (SFdiv_core_binary 53 1024 m1 e1 m2 e2)))
       (snd (fst (SFdiv_core_binary 53 1024 m1 e1 m2 e2)))
       (snd (SFdiv_core_binary 53 1024 m1 e1 m2 e2))
       (IZR m1 * bpow e1 / (IZR m2 * bpow e2))
  /\ snd (fst (SFdiv_core_binary 53 1024 m1 e1 m2 e2))
     = Z.min (fexp 53 1024 (Zdigits2 m1 + e1 - (Zdigits2 m2 + e2))) (e1 - e2).
Proof.
  intros H1 H2. unfold SFdiv_core_binary.
  set (e' := Z.min (fexp 53 1024 (Zdigits2 m1 + e1 - (Zdigits2 m2 + e2))) (e1 - e2)).
  set (s := (e1 - e2 - e')%Z).
  assert (Hs : (0 <= s)%Z) by (unfold s, e'; lia).
  set (m' := match s with Zpos _ => Z.shiftl m1 s | Z0 => m1 | Zneg _ => 0%Z end).
  assert (Hm' : m' = (m1 * 2 ^ s)%Z).
  { unfold m'. destruct s as [|p|p] eqn:Es; try lia.
    - rewrite Z.shiftl_mul_pow2 by lia. reflexivity. }
  assert (Hm'pos : (0 <= m')%Z) by (rewrite Hm'; apply Z.mul_nonneg_nonneg; [lia | apply Z.pow_nonneg; lia]).
  pose proof (Z_div_mod m' m2 ltac:(lia)) as Hdm.
  destruct (Z.div_eucl m' m2) as [q r]. destruct Hdm as [Hq Hr]. cbn [fst snd].
  assert (Hqpos : (0 <= q)%Z) by nia.
  split; [exact Hqpos |]. split; [| reflexivity].
  assert (Hm2 : 0 < IZR m2) by (apply IZR_lt; lia).
  pose proof (bpow_pos e2) as Hb2. pose proof (bpow_pos e') as Hbe'.
  replace (IZR m1 * bpow e1 / (IZR m2 * bpow e2))
    with ((IZR q + IZR r / IZR m2) * bpow e').
  - apply new_location_inbetween. exact Hr.
  - assert (E : IZR m1 * bpow s = IZR m2 * IZR q + IZR r).
    { rewrite bpow_IZR by exact Hs. rewrite <- mult_IZR, <- Hm', Hq, plus_IZR, mult_IZR. reflexivity. }
    replace e1 with (s + e' + e2)%Z by (unfold s; lia).
    rewrite !bpow_add.
    replace (IZR m1 * (bpow s * bpow e' * bpow e2) / (IZR m2 * bpow e2))
      with ((IZR m1 * bpow s) * bpow e' / IZR m2) by (field; lra).
    rewrite E. field. lra.
Qed.

Lemma bpow_neg_spec n : (0 <= n)%Z -> bpow (- n) = / IZR (2 ^ n).
Proof. intros Hn. rewrite bpow_opp, bpow_IZR by exact Hn. reflexivity. Qed.

Lemma SF2R_c100 : SF2R c100 = 100.
Proof.
  unfold c100. cbn [SF2R]. change (bpow (-46)) with (bpow (Z.opp 46)).
  rewrite bpow_neg_spec by lia. change (2 ^ 46)%Z with 70368744177664%Z. lra.
Qed.

Lemma SFdiv_100_bound f M0 M k :
  fin_le M0 f ->
  - bpow k < SF2R f < bpow k ->
  (-1074 <= M)%Z -> (k - 58 <= M)%Z -> (M <= k - 6)%Z -> (M <= 971)%Z ->
  fin_le M (SFdiv 53 1024 f c100)
  /\ near (SF2R (SFdiv 53 1024 f c100)) (SF2R f / 100) (bpow (M + 1)).
Proof.
  intros Hf Hk HM1 HM2 HM3 HM4. pose proof (bpow_pos (M + 1)).
  destruct f as [s| | |s m e]; cbn in Hf; try contradiction.
  - split; [exact I |]. cbn. unfold near. lra.
  - unfold c100. cbn [SFdiv].
    destruct (SFdiv_core_binary_loc (Zpos m) e 7036874417766400 (-46) ltac:(lia) ltac:(lia))
      as (Hq & Hx & He).
    destruct (SFdiv_core_binary 53 1024 (Zpos m) e 7036874417766400 (-46)) as [[mz ez] lz].
    cbn [fst snd] in *.
    pose proof SF2R_c100 as Hc. unfold c100 in Hc. cbn [SF2R] in Hc. rewrite Rmult_1_l in Hc.
    rewrite Hc in Hx.
    assert (Hv : SF2R (S754_finite s m e) / 100
                 = if xorb s false then - (IZR (Zpos m) * bpow e / 100)
                   else IZR (Zpos m) * bpow e / 100).
    { cbn [SF2R]. destruct s; cbn; field. }
    rewrite Hv.
    assert (Hmag : IZR (Zpos m) * bpow e < bpow k).
    { cbn [SF2R] in Hk. destruct s; lra. }
    assert (Hpos : 0 < IZR (Zpos m) * bpow e).
    { pose proof (bpow_pos e). assert (0 < IZR (Zpos m)) by (apply IZR_lt; lia). nra. }
    assert (Hb6 : bpow k = 64 * bpow (k - 6)).
    { replace k with ((k - 6) + 6)%Z at 1 by lia. rewrite bpow_add.
      rewrite (bpow_IZR 6) by lia. change (2 ^ 6)%Z with 64%Z. ring. }
    apply (binary_round_aux_bound _ _ _ _ _ M (k - 6)); try lia.
    + exact Hx.
    + pose proof (bpow_pos (k - 6)). lra.
    + pose proof (Zdigits2_le (Zpos m) e k ltac:(lia) Hmag) as Hd.
      change (Zdigits2 7036874417766400) with 53%Z in He.
      pose proof (fexp_le (Zdigits2 (Zpos m) + e - (53 + -46)) (k - 6) M). lia.
Qed.

(** [int(x)] is the truncation of the value of [x]. *)
Lemma to_int_value m e :
  let a := if (e <? 0)%Z then (Zpos m / 2 ^ (- e))%Z else (Zpos m * 2 ^ e)%Z in
  IZR a <= IZR (Zpos m) * bpow e < IZR a + 1.
Proof.
  cbn zeta. destruct (Z.ltb_spec e 0) as [He | He].
  - set (p := (2 ^ (- e))%Z).
    assert (Hp : (0 < p)%Z) by (apply Z.pow_pos_nonneg; lia).
    assert (Hb : bpow e = / IZR p).
    { replace e with (- (- e))%Z at 1 by lia. apply bpow_neg_spec. lia. }
    rewrite Hb.
    pose proof (Z_div_mod (Zpos m) p ltac:(lia)) as Hdm.
    unfold Z.div. destruct (Z.div_eucl (Zpos m) p) as [q r]. destruct Hdm as [Hq Hr].
    rewrite Hq, plus_IZR, mult_IZR.
    assert (0 < IZR p) by (apply IZR_lt; lia).
    assert (0 <= IZR r < IZR p) by (split; [apply IZR_le | apply IZR_lt]; lia).
    split.
    + apply (Rmult_le_reg_r (IZR p)); [lra |]. field_simplify; [| lra]. lra.
    + apply (Rmult_lt_reg_r (IZR p)); [lra |]. field_simplify; [| lra]. lra.
  - rewrite mult_IZR, <- bpow_IZR by lia. lra.
Qed.

Lemma bpow_m19 : bpow (-19) = / 524288.
Proof. change (bpow (-19)) with (bpow (Z.opp 19)). rewrite bpow_neg_spec by lia. reflexivity. Qed.
Lemma bpow_m18 : bpow (-18) = / 262144.
Proof. change (bpow (-18)) with (bpow (Z.opp 18)). rewrite bpow_neg_spec by lia. reflexivity. Qed.
Lemma bpow_m24 : bpow (-24) = / 16777216.
Proof. change (bpow (-24)) with (bpow (Z.opp 24)). rewrite bpow_neg_spec by lia. reflexivity. Qed.
Lemma bpow_32 : bpow 32 = 4294967296.
Proof. rewrite bpow_IZR by lia. reflexivity. Qed.
Lemma bpow_33 : bpow 33 = 8589934592.
Proof. rewrite bpow_IZR by lia. reflexivity. Qed.

Lemma SF2R_lit_0_7 : SF2R PyFloat.lit_0_7 = 6305039478318694 / 9007199254740992.
Proof.
  unfold PyFloat.lit_0_7. cbn [SF2R]. change (bpow (-53)) with (bpow (Z.opp 53)).
  rewrite bpow_neg_spec by lia. change (2 ^ 53)%Z with 9007199254740992%Z. lra.
Qed.
Lemma SF2R_lit_0_2 : SF2R PyFloat.lit_0_2 = 7205759403792794 / 36028797018963968.
Proof.
  unfold PyFloat.lit_0_2. cbn [SF2R]. change (bpow (-55)) with (bpow (Z.opp 55)).
  rewrite bpow_neg_spec by lia. change (2 ^ 55)%Z with 36028797018963968%Z. lra.
Qed.
Lemma SF2R_lit_0_1 : SF2R PyFloat.lit_0_1 = 7205759403792794 / 72057594037927936.
Proof.
  unfold PyFloat.lit_0_1. cbn [SF2R]. change (bpow (-56)) with (bpow (Z.opp 56)).
  rewrite bpow_neg_spec by lia. change (2 ^ 56)%Z with 72057594037927936%Z. lra.
Qed.

Lemma of_int_bound n :
  (0 <= n < 2 ^ 32)%Z ->
  exists f, PyFloat.of_int n = Ok f /\ fin_le (-20) f /\ near (SF2R f) (IZR n) (bpow (-19)).
Proof.
  intros Hn.
  assert (Hk : - bpow 32 < IZR n * bpow 0 < bpow 32).
  { rewrite bpow_0, bpow_32, Rmult_1_r.
    assert (0 <= IZR n) by (apply IZR_le; lia).
    assert (IZR n < 4294967296) by (apply IZR_lt; lia). lra. }
  destruct (binary_normalize_bound n 0 (-20) 32 Hk) as [Hf Hv]; try lia.
  rewrite bpow_0, Rmult_1_r in Hv.
  unfold PyFloat.of_int. change PyFloat.prec with 53%Z. change PyFloat.emax with 1024%Z.
  destruct (binary_normalize 53 1024 n 0 false) as [s|s| |s m e]; cbn in Hf; try contradiction.
  - eexists; split; [reflexivity |]. split; [exact I | exact Hv].
  - eexists; split; [reflexivity |]. split; [exact Hf | exact Hv].
Qed.

(** [n * w] for a volume and a weight of exponent at most [0]. *)
Lemma int_mul_bound n w c :
  (0 <= n < 2 ^ 32)%Z -> fin_le 0 w -> SF2R w = c -> 0 <= c <= 1 ->
  exists f, PyFloat.int_mul n w = Ok f /\ fin_le (-20) f
            /\ near (SF2R f) (IZR n * c) (bpow (-18)).
Proof.
  intros Hn Hw Hc Hc1. destruct (of_int_bound n Hn) as (x & Hx & Hfx & Hvx).
  unfold PyFloat.int_mul. rewrite Hx. cbn [mbind result_bind mret result_ret].
  eexists; split; [reflexivity |].
  assert (0 <= IZR n) by (apply IZR_le; lia).
  assert (IZR n <= 4294967295) by (apply IZR_le; lia).
  unfold near in Hvx. rewrite bpow_m19 in Hvx.
  assert (Hk : - bpow 32 < SF2R x * SF2R w < bpow 32).
  { rewrite Hc, bpow_32. nra. }
  destruct (SFmul_bound x w (-20) 0 (-20) 32 Hfx Hw Hk) as [Hf Hv]; try lia.
  split; [exact Hf |].
  unfold near in *. change (-20 + 1)%Z with (-19)%Z in Hv.
  rewrite bpow_m19 in Hv. rewrite bpow_m18. rewrite Hc in Hv. unfold PyFloat.mul.
  change PyFloat.prec with 53%Z. change PyFloat.emax with 1024%Z. nra.
Qed.

(** One pass of the loop adds [a * c - b * c] up to [2 ^ -16]. *)
Lemma balance_step_bound (weights : list PyFloat.float) asks bids balance i pa a pb b
    (w : PyFloat.float) c :
  nth_error asks i = Some (pa, a) -> nth_error bids i = Some (pb, b) ->
  nth_error weights i = Some w ->
  (0 <= a < 2 ^ 32)%Z -> (0 <= b < 2 ^ 32)%Z ->
  fin_le 0 w -> SF2R w = c -> 0 <= c <= 1 ->
  fin_le (-19) balance -> - 4080218931 <= SF2R balance <= 4080218931 ->
  exists balance',
    balance_step weights asks bids balance i = Ok balance'
    /\ fin_le (-19) balance'
    /\ near (SF2R balance') (SF2R balance + IZR a * c - IZR b * c) (bpow (-16)).
Proof.
  intros Ha Hb Hw Hra Hrb Hfw Hc Hc1 Hfb Hmag.
  destruct (int_mul_bound a w c Hra Hfw Hc Hc1) as (x & Hx & Hfx & Hvx).
  destruct (int_mul_bound b w c Hrb Hfw Hc Hc1) as (y & Hy & Hfy & Hvy).
  unfold balance_step, index. rewrite Ha. cbn [mbind result_bind snd].
    rewrite Hw. cbn [mbind result_bind]. rewrite Hx. cbn [mbind result_bind].
  rewrite Hb. cbn [mbind result_bind snd]. rewrite Hy. cbn [mbind result_bind mret result_ret].
  eexists; split; [reflexivity |].
  assert (0 <= IZR a <= 4294967295) by (split; apply IZR_le; lia).
  assert (0 <= IZR b <= 4294967295) by (split; apply IZR_le; lia).
  unfold near in Hvx, Hvy. rewrite bpow_m18 in Hvx, Hvy.
  assert (Hk1 : - bpow 33 < SF2R balance + SF2R x < bpow 33) by (rewrite bpow_33; nra).
  destruct (SFadd_bound balance x (-19) (-19) 33 Hfb
              (fin_le_mono (-20) (-19) x ltac:(lia) Hfx) ltac:(lia) Hk1) as [Hf1 Hv1]; try lia.
  change (-19 + 1)%Z with (-18)%Z in Hv1. unfold near in Hv1. rewrite bpow_m18 in Hv1.
  unfold PyFloat.add, PyFloat.sub.
  change PyFloat.prec with 53%Z. change PyFloat.emax with 1024%Z.
  set (b1 := SFadd 53 1024 balance x) in *.
  assert (Hk2 : - bpow 33 < SF2R b1 - SF2R y < bpow 33) by (rewrite bpow_33; nra).
  destruct (SFsub_bound b1 y (-19) (-19) 33 Hf1
              (fin_le_mono (-20) (-19) y ltac:(lia) Hfy) ltac:(lia) Hk2) as [Hf2 Hv2]; try lia.
  change (-19 + 1)%Z with (-18)%Z in Hv2. unfold near in Hv2. rewrite bpow_m18 in Hv2.
  split; [exact Hf2 |]. unfold near.
  assert (Hb16 : bpow (-16) = / 65536).
  { change (bpow (-16)) with (bpow (Z.opp 16)). rewrite bpow_neg_spec by lia. reflexivity. }
  rewrite Hb16. lra.
Qed.

Lemma to_int_bound f M :
  fin_le M f ->
  exists z, PyFloat.to_int f = Ok z
    /\ (0 <= SF2R f -> (0 <= z)%Z /\ IZR z <= SF2R f < IZR z + 1)
    /\ (SF2R f <= 0 -> (z <= 0)%Z /\ IZR z - 1 < SF2R f <= IZR z).
Proof.
  intros Hf. destruct f as [s| | |s m e]; cbn in Hf; try contradiction.
  - exists 0%Z. split; [reflexivity |]. cbn [SF2R]. split; intros _; split; try lia; lra.
  - cbn [PyFloat.to_int]. eexists; split; [reflexivity |].
    pose proof (to_int_value m e) as Hv. cbn zeta in Hv.
    set (a := if (e <? 0)%Z then (Z.pos m / 2 ^ (- e))%Z else (Z.pos m * 2 ^ e)%Z) in *.
    assert (Hpos : 0 < IZR (Zpos m) * bpow e).
    { pose proof (bpow_pos e). assert (0 < IZR (Zpos m)) by (apply IZR_lt; lia). nra. }
    assert (Ha : (0 <= a)%Z).
    { apply le_IZR. apply Rnot_lt_le. intros Hlt.
      assert (IZR a + 1 <= 0).
      { rewrite <- (plus_IZR a 1). apply IZR_le. apply lt_IZR in Hlt. lia. }
      lra. }
    cbn [SF2R]. destruct s; cbn [cond_Zopp]; rewrite ?opp_IZR.
    + split; intros H; [lra |]. split; [lia | lra].
    + split; intros H; [| lra]. split; [lia | lra].
Qed.

(** A thousand times the float score is within 1/2 of the weighted
    difference. *)
Lemma assess_bound p1 p2 p3 ps a1 a2 a3 avs q1 q2 q3 qs b1 b2 b3 bvs :
  (0 <= a1 < 2 ^ 32)%Z -> (0 <= a2 < 2 ^ 32)%Z -> (0 <= a3 < 2 ^ 32)%Z ->
  (0 <= b1 < 2 ^ 32)%Z -> (0 <= b2 < 2 ^ 32)%Z -> (0 <= b3 < 2 ^ 32)%Z ->
  exists q z,
    assess_market_balance (p1 :: p2 :: p3 :: ps) (a1 :: a2 :: a3 :: avs)
      (q1 :: q2 :: q3 :: qs) (b1 :: b2 :: b3 :: bvs) = Ok z
    /\ PyFloat.to_int q = Ok z
    /\ fin_le (-25) q
    /\ near (SF2R q * 1000) (IZR (weighted_difference a1 a2 a3 b1 b2 b3)) (/ 2).
Proof.
  intros Ha1 Ha2 Ha3 Hb1 Hb2 Hb3.
  unfold assess_market_balance. cbn [length seq for_range].
  change (firstn 3 (p1 :: p2 :: p3 :: ps)) with [p1; p2; p3].
  change (firstn 3 (a1 :: a2 :: a3 :: avs)) with [a1; a2; a3].
  change (firstn 3 (q1 :: q2 :: q3 :: qs)) with [q1; q2; q3].
  change (firstn 3 (b1 :: b2 :: b3 :: bvs)) with [b1; b2; b3].
  cbn [combine].
  change (PyFloat.of_int 0) with (Ok (S754_zero false)). cbn [mbind result_bind].
  assert (R1 : 0 <= IZR a1 <= 4294967295) by (split; apply IZR_le; lia).
  assert (R2 : 0 <= IZR a2 <= 4294967295) by (split; apply IZR_le; lia).
  assert (R3 : 0 <= IZR a3 <= 4294967295) by (split; apply IZR_le; lia).
  assert (R4 : 0 <= IZR b1 <= 4294967295) by (split; apply IZR_le; lia).
  assert (R5 : 0 <= IZR b2 <= 4294967295) by (split; apply IZR_le; lia).
  assert (R6 : 0 <= IZR b3 <= 4294967295) by (split; apply IZR_le; lia).
  assert (Hb16 : bpow (-16) = / 65536).
  { change (bpow (-16)) with (bpow (Z.opp 16)). rewrite bpow_neg_spec by lia. reflexivity. }
  set (ws := [PyFloat.lit_0_7; PyFloat.lit_0_2; PyFloat.lit_0_1]).
  set (asks := [(p1, a1); (p2, a2); (p3, a3)]).
  set (bids := [(q1, b1); (q2, b2); (q3, b3)]).
  destruct (balance_step_bound ws asks bids (S754_zero false) 0 p1 a1 q1 b1
              PyFloat.lit_0_7 _ eq_refl eq_refl eq_refl Ha1 Hb1 ltac:(cbn; lia)
              SF2R_lit_0_7 ltac:(lra) I ltac:(cbn [SF2R]; lra))
    as (x1 & E1 & F1 & V1).
    rewrite E1. cbn [mbind result_bind].
  unfold near in V1. rewrite Hb16 in V1. cbn [SF2R] in V1.
  destruct (balance_step_bound ws asks bids x1 1 p2 a2 q2 b2
              PyFloat.lit_0_2 _ eq_refl eq_refl eq_refl Ha2 Hb2 ltac:(cbn; lia)
              SF2R_lit_0_2 ltac:(lra) F1 ltac:(lra))
    as (x2 & E2 & F2 & V2).
  rewrite E2. cbn [mbind result_bind].
  unfold near in V2. rewrite Hb16 in V2.
  destruct (balance_step_bound ws asks bids x2 2 p3 a3 q3 b3
              PyFloat.lit_0_1 _ eq_refl eq_refl eq_refl Ha3 Hb3 ltac:(cbn; lia)
              SF2R_lit_0_1 ltac:(lra) F2 ltac:(lra))
    as (x3 & E3 & F3 & V3).
  rewrite E3. cbn [mbind result_bind].
  unfold near in V3. rewrite Hb16 in V3.
  unfold PyFloat.div_int. change (PyFloat.of_int (10 ^ 2)) with (Ok c100).
  cbn [mbind result_bind mret result_ret].
  unfold PyFloat.div. change PyFloat.prec with 53%Z. change PyFloat.emax with 1024%Z.
  assert (Hk : - bpow 33 < SF2R x3 < bpow 33) by (rewrite bpow_33; lra).
  destruct (SFdiv_100_bound x3 (-19) (-25) 33 F3 Hk) as [Fq Vq]; try lia.
  change (-25 + 1)%Z with (-24)%Z in Vq. unfold near in Vq. rewrite bpow_m24 in Vq.
  destruct (to_int_bound _ _ Fq) as (z & Ez & _).
  exists (SFdiv 53 1024 x3 c100), z.
  split; [exact Ez |]. split; [exact Ez |]. split; [exact Fq |].
  unfold near, weighted_difference.
  rewrite minus_IZR, !plus_IZR, !mult_IZR. lra.
Qed.

End FloatBounds.

(** ** The imbalance score against the exact score *)

Lemma truncation_cases (S z : Z) :
  (0 <= z /\ 1000 * z <= S <= 1000 * z + 1000)
  \/ (z <= 0 /\ 1000 * z - 1000 <= S <= 1000 * z) ->
  z = S ÷ 1000 \/ (Z.rem S 1000 = 0 /\ S <> 0 /\ z = S ÷ 1000 - Z.sgn S).
Proof.
  intros H.
  pose proof (Z.quot_rem' S 1000) as Hqr.
  destruct (Z_le_gt_dec 0 S) as [Hs | Hs].
  - pose proof (Z.rem_bound_pos S 1000 Hs ltac:(lia)) as Hr. lia.
  - pose proof (Z.rem_nonpos S 1000 ltac:(lia) ltac:(lia)) as Hr.
    pose proof (Z.rem_bound_abs S 1000 ltac:(lia)) as Hr'. lia.
Qed.

(** With three levels per side and volumes below 2^32 the score is
    computed, and it is the exact score unless that is a non-zero integer,
    where it can be the integer next to it toward zero. *)
Lemma assess_score_cases p1 p2 p3 ps a1 a2 a3 avs q1 q2 q3 qs b1 b2 b3 bvs :
  0 <= a1 < 2 ^ 32 -> 0 <= a2 < 2 ^ 32 -> 0 <= a3 < 2 ^ 32 ->
  0 <= b1 < 2 ^ 32 -> 0 <= b2 < 2 ^ 32 -> 0 <= b3 < 2 ^ 32 ->
  exists z,
    assess_market_balance (p1 :: p2 :: p3 :: ps) (a1 :: a2 :: a3 :: avs)
      (q1 :: q2 :: q3 :: qs) (b1 :: b2 :: b3 :: bvs) = Ok z
    /\ (z = exact_score a1 a2 a3 b1 b2 b3
        \/ (Z.rem (weighted_difference a1 a2 a3 b1 b2 b3) 1000 = 0
            /\ weighted_difference a1 a2 a3 b1 b2 b3 <> 0
            /\ z = exact_score a1 a2 a3 b1 b2 b3
                   - Z.sgn (weighted_difference a1 a2 a3 b1 b2 b3))).
Proof.
  intros Ha1 Ha2 Ha3 Hb1 Hb2 Hb3.
  destruct (assess_bound p1 p2 p3 ps a1 a2 a3 avs q1 q2 q3 qs b1 b2 b3 bvs
              Ha1 Ha2 Ha3 Hb1 Hb2 Hb3) as (q & z & Ez & Eq & Fq & Vq).
  exists z. split; [exact Ez |].
  unfold exact_score. set (S := weighted_difference a1 a2 a3 b1 b2 b3) in *.
  apply truncation_cases.
  destruct (to_int_bound q _ Fq) as (z' & Ez' & Hpos & Hneg).
  rewrite Eq in Ez'. injection Ez' as <-.
  unfold near in Vq.
  destruct (Rle_dec 0 (SF2R q)) as [Hq | Hq].
  - left. destruct (Hpos Hq) as [Hz Hv]. split; [exact Hz |].
    split.
    + apply le_IZR. rewrite mult_IZR.
      apply Rnot_lt_le. intros Hlt.
      assert (IZR S + 1 <= 1000 * IZR z)%R.
      { rewrite <- (mult_IZR 1000 z), <- (plus_IZR S 1). apply IZR_le.
        rewrite <- mult_IZR in Hlt. apply lt_IZR in Hlt. lia. }
      lra.
    + apply Z.lt_succ_r. apply lt_IZR. unfold Z.succ.
      rewrite !plus_IZR, mult_IZR. lra.
  - right. assert (Hq' : (SF2R q <= 0)%R) by lra.
    destruct (Hneg Hq') as [Hz Hv]. split; [exact Hz |].
    split.
    + assert (IZR (1000 * z - 1000 - 1) < IZR S)%R.
      { rewrite !minus_IZR, mult_IZR. lra. }
      apply lt_IZR in H. lia.
    + apply le_IZR. rewrite mult_IZR.
      apply Rnot_lt_le. intros Hlt.
      assert (1000 * IZR z + 1 <= IZR S)%R.
      { rewrite <- (mult_IZR 1000 z), <- (plus_IZR _ 1). apply IZR_le.
        rewrite <- mult_IZR in Hlt. apply lt_IZR in Hlt. lia. }
      lra.
Qed.

(** The literals are the correctly rounded quotients 7/10, 2/10 and 1/10. *)
Lemma literals_correctly_rounded :
  (x ← PyFloat.of_int 7; PyFloat.div_int x 10) = Ok PyFloat.lit_0_7
  /\ (x ← PyFloat.of_int 2; PyFloat.div_int x 10) = Ok PyFloat.lit_0_2
  /\ (x ← PyFloat.of_int 1; PyFloat.div_int x 10) = Ok PyFloat.lit_0_1.
Proof. repeat split; vm_compute; reflexivity. Qed.

(** C4, as stated, fails: with ask volumes [12, 324, 268] against an empty
    bid side the exact score is (8.4 + 64.8 + 26.8) / 100 = 1, and with
    [24, 648, 536] it is 2, but the sums computed in binary floating point
    fall just below 100 and 200 and the code returns 0 and 1. *)
Lemma C4_counterexample :
  assess_market_balance ex_ask_prices [12; 324; 268; 0; 0] ex_bid_prices ex_empty = Ok 0
  /\ exact_score 12 324 268 0 0 0 = 1
  /\ assess_market_balance ex_ask_prices [24; 648; 536; 0; 0] ex_bid_prices ex_empty = Ok 1
  /\ exact_score 24 648 536 0 0 0 = 2.
Proof. repeat split; vm_compute; reflexivity. Qed.

(** C4 (amended): for every snapshot with three levels per side and
    volumes in [0, 2^32), assess_market_balance returns the score
    (7 a1 + 2 a2 + a3 - 7 b1 - 2 b2 - b3) / 1000 truncated toward zero,
    except that when this exact score is a non-zero integer the result may
    be the integer one closer to zero (the weights 0.7, 0.2 and 0.1 are
    binary floats); for ask volumes [50, 50, 50] and bid volumes [0, 0, 0]
    it returns 0. *)
Theorem C4_score_exact_up_to_integer_boundary
    p1 p2 p3 ps a1 a2 a3 avs q1 q2 q3 qs b1 b2 b3 bvs :
  0 <= a1 < 2 ^ 32 -> 0 <= a2 < 2 ^ 32 -> 0 <= a3 < 2 ^ 32 ->
  0 <= b1 < 2 ^ 32 -> 0 <= b2 < 2 ^ 32 -> 0 <= b3 < 2 ^ 32 ->
  (exists z,
     assess_market_balance (p1 :: p2 :: p3 :: ps) (a1 :: a2 :: a3 :: avs)
       (q1 :: q2 :: q3 :: qs) (b1 :: b2 :: b3 :: bvs) = Ok z
     /\ (z = exact_score a1 a2 a3 b1 b2 b3
         \/ (Z.rem (weighted_difference a1 a2 a3 b1 b2 b3) 1000 = 0
             /\ weighted_difference a1 a2 a3 b1 b2 b3 <> 0
             /\ z = exact_score a1 a2 a3 b1 b2 b3
                    - Z.sgn (weighted_difference a1 a2 a3 b1 b2 b3))))
  /\ assess_market_balance (p1 :: p2 :: p3 :: ps) (50 :: 50 :: 50 :: avs)
       (q1 :: q2 :: q3 :: qs) (0 :: 0 :: 0 :: bvs) = Ok 0.
Proof.
  intros Ha1 Ha2 Ha3 Hb1 Hb2 Hb3. split.
  - apply assess_score_cases; assumption.
  - vm_compute. reflexivity.
Qed.

Lemma C4_witness :
  (exists z,
     assess_market_balance (10100 :: 10200 :: 10300 :: [0; 0]) (90 :: 185 :: 0 :: [0; 0])
       (10000 :: 9900 :: 9800 :: [0; 0]) (0 :: 0 :: 0 :: [0; 0]) = Ok z
     /\ (z = exact_score 90 185 0 0 0 0
         \/ (Z.rem (weighted_difference 90 185 0 0 0 0) 1000 = 0
             /\ weighted_difference 90 185 0 0 0 0 <> 0
             /\ z = exact_score 90 185 0 0 0 0
                    - Z.sgn (weighted_difference 90 185 0 0 0 0))))
  /\ assess_market_balance (10100 :: 10200 :: 10300 :: [0; 0]) (50 :: 50 :: 50 :: [0; 0])
       (10000 :: 9900 :: 9800 :: [0; 0]) (0 :: 0 :: 0 :: [0; 0]) = Ok 0.
Proof.
  apply (C4_score_exact_up_to_integer_boundary
           10100 10200 10300 [0; 0] 90 185 0 [0; 0] 10000 9900 9800 [0; 0] 0 0 0 [0; 0]);
    lia.
Defined.

(** *** Fewer than three levels *)

Lemma weight_at i (w : PyFloat.float) :
  nth_error [PyFloat.lit_0_7; PyFloat.lit_0_2; PyFloat.lit_0_1] i = Some w ->
  fin_le 0 w /\ (0 <= SF2R w <= 1)%R.
Proof.
  destruct i as [|[|[|i]]]; cbn [nth_error]; intros H.
  - injection H as <-. rewrite SF2R_lit_0_7. split; [cbn; lia | lra].
  - injection H as <-. rewrite SF2R_lit_0_2. split; [cbn; lia | lra].
  - injection H as <-. rewrite SF2R_lit_0_1. split; [cbn; lia | lra].
  - destruct i; discriminate.
Qed.

(** With volumes in range, the loop body can only raise [IndexError]. *)
Lemma balance_step_Raise asks bids balance i e :
  (forall pa a, In (pa, a) asks -> 0 <= a < 2 ^ 32) ->
  (forall pb b, In (pb, b) bids -> 0 <= b < 2 ^ 32) ->
  balance_step [PyFloat.lit_0_7; PyFloat.lit_0_2; PyFloat.lit_0_1] asks bids balance i
  = Raise e ->
  e = IndexError.
Proof.
  intros Hasks Hbids. unfold balance_step, index.
  destruct (nth_error asks i) as [[pa a]|] eqn:Ea; cbn [mbind result_bind snd];
    [| intros H; congruence].
  destruct (nth_error [PyFloat.lit_0_7; PyFloat.lit_0_2; PyFloat.lit_0_1] i) as [w|] eqn:Ew;
    cbn [mbind result_bind];
    [| intros H; congruence].
  destruct (weight_at i w Ew) as [Hw Hc].
  destruct (int_mul_bound a w (SF2R w) (Hasks pa a (nth_error_In _ _ Ea)) Hw eq_refl Hc)
    as (x & Hx & _).
  rewrite Hx. cbn [mbind result_bind].
  destruct (nth_error bids i) as [[pb b]|] eqn:Eb; cbn [mbind result_bind snd];
    [| intros H; congruence].
  destruct (int_mul_bound b w (SF2R w) (Hbids pb b (nth_error_In _ _ Eb)) Hw eq_refl Hc)
    as (y & Hy & _).
  rewrite Hy. cbn [mbind result_bind mret result_ret]. discriminate.
Qed.

Lemma in_combine_firstn (prices volumes : list Z) p v :
  volumes_in_range volumes ->
  In (p, v) (combine (firstn 3 prices) (firstn 3 volumes)) -> 0 <= v < 2 ^ 32.
Proof.
  intros Hr Hin. apply in_combine_r in Hin.
  unfold volumes_in_range in Hr. rewrite Forall_forall in Hr.
  apply Hr. apply list_elem_of_In. exact Hin.
Qed.

Lemma three_levels (l : list Z) :
  (3 <= length l)%nat -> exists x1 x2 x3 rest, l = x1 :: x2 :: x3 :: rest.
Proof.
  destruct l as [|x1 [|x2 [|x3 rest]]]; cbn; try lia. intros _. eauto.
Qed.

Lemma volumes_in_range_cons v1 v2 v3 rest :
  volumes_in_range (v1 :: v2 :: v3 :: rest) ->
  0 <= v1 < 2 ^ 32 /\ 0 <= v2 < 2 ^ 32 /\ 0 <= v3 < 2 ^ 32.
Proof.
  unfold volumes_in_range. cbn [firstn]. intros H.
  inversion H as [|? ? H1 H']; subst. inversion H' as [|? ? H2 H'']; subst.
  inversion H'' as [|? ? H3 _]; subst. auto.
Qed.

(** With volumes in range the score is computed from any three levels. *)
Lemma assess_Ok ap av bp bv :
  volumes_in_range av -> volumes_in_range bv ->
  (3 <= length ap)%nat -> (3 <= length av)%nat ->
  (3 <= length bp)%nat -> (3 <= length bv)%nat ->
  exists z, assess_market_balance ap av bp bv = Ok z.
Proof.
  intros Hav Hbv L1 L2 L3 L4.
  destruct (three_levels _ L1) as (p1 & p2 & p3 & ps & ->).
  destruct (three_levels _ L2) as (a1 & a2 & a3 & avs & ->).
  destruct (three_levels _ L3) as (q1 & q2 & q3 & qs & ->).
  destruct (three_levels _ L4) as (b1 & b2 & b3 & bvs & ->).
  destruct (volumes_in_range_cons _ _ _ _ Hav) as (Ha1 & Ha2 & Ha3).
  destruct (volumes_in_range_cons _ _ _ _ Hbv) as (Hb1 & Hb2 & Hb3).
  destruct (assess_score_cases p1 p2 p3 ps a1 a2 a3 avs q1 q2 q3 qs b1 b2 b3 bvs
              Ha1 Ha2 Ha3 Hb1 Hb2 Hb3) as (z & Hz & _).
  exists z. exact Hz.
Qed.

Lemma assess_Raise ap av bp bv e :
  volumes_in_range av -> volumes_in_range bv ->
  assess_market_balance ap av bp bv = Raise e -> e = IndexError.
Proof.
  intros Hav Hbv He.
  destruct (le_lt_dec 3 (length ap)) as [L1|L1];
    [destruct (le_lt_dec 3 (length av)) as [L2|L2];
     [destruct (le_lt_dec 3 (length bp)) as [L3|L3];
      [destruct (le_lt_dec 3 (length bv)) as [L4|L4] | ] | ] | ].
  1: { destruct (assess_Ok ap av bp bv Hav Hbv L1 L2 L3 L4) as [z Hz]. congruence. }
  all: revert He; unfold assess_market_balance; cbn [length seq for_range];
    change (PyFloat.of_int 0) with (Ok (S754_zero false)); cbn [mbind result_bind];
    pose proof (fun p v => in_combine_firstn ap av p v Hav) as Hasks;
    pose proof (fun p v => in_combine_firstn bp bv p v Hbv) as Hbids;
    destruct (balance_step _ _ _ _ 0%nat) as [x0|e0] eqn:E0; cbn [mbind result_bind];
      [| intros H; injection H as <-; exact (balance_step_Raise _ _ _ _ _ Hasks Hbids E0)];
    destruct (balance_step _ _ _ _ 1%nat) as [x1|e1] eqn:E1; cbn [mbind result_bind];
      [| intros H; injection H as <-; exact (balance_step_Raise _ _ _ _ _ Hasks Hbids E1)];
    destruct (balance_step _ _ _ _ 2%nat) as [x2|e2] eqn:E2; cbn [mbind result_bind];
      [| intros H; injection H as <-; exact (balance_step_Raise _ _ _ _ _ Hasks Hbids E2)];
    exfalso; apply balance_step_Ok in E2 as [Ha Hb];
    rewrite length_combine, !length_firstn in Ha, Hb; lia.
Qed.

Lemma three_deep_spec ap av bp bv :
  three_deep ap av bp bv = true
  <-> (3 <= length ap)%nat /\ (3 <= length av)%nat
      /\ (3 <= length bp)%nat /\ (3 <= length bv)%nat.
Proof.
  unfold three_deep. rewrite !andb_true_iff, !Nat.leb_le. tauto.
Qed.





(** *** Cancels and the score *)



(** ** Identifiers of the inserts along a run *)

Lemma insert_ids_app o1 o2 : insert_ids (o1 ++ o2) = insert_ids o1 ++ insert_ids o2.
Proof.
  induction o1 as [|[id | id sd p v l] o1 IH]; cbn; [reflexivity | exact IH |].
  rewrite IH. reflexivity.
Qed.

Lemma consecutive_app n : forall start m,
  consecutive start n ++ consecutive (start + Z.of_nat n) m = consecutive start (n + m).
Proof.
  induction n as [|n IH]; intros start m; cbn [consecutive Nat.add app].
  - f_equal. lia.
  - f_equal. rewrite <- IH. do 2 f_equal. lia.
Qed.

(** The inserts of a reconciliation take the next identifiers of the counter. *)
Lemma reconcile_insert_ids self p q v w :
  insert_ids (sent (reconcile p q v w self))
  = consecutive (order_ids self) (length (insert_ids (sent (reconcile p q v w self))))
  /\ order_ids (state_of (reconcile p q v w self))
     = order_ids self + Z.of_nat (length (insert_ids (sent (reconcile p q v w self)))).
Proof.
  unfold reconcile, sent, state_of; cbn. case_conditions.
  all: cbn; split; try reflexivity; lia.
Qed.

Lemma handle_insert_ids FUTURE decodes ev self :
  insert_ids (sent (handle FUTURE decodes ev self))
  = consecutive (order_ids self) (length (insert_ids (sent (handle FUTURE decodes ev self))))
  /\ order_ids (state_of (handle FUTURE decodes ev self))
     = order_ids self
       + Z.of_nat (length (insert_ids (sent (handle FUTURE decodes ev self)))).
Proof.
  destruct ev as [id msg | i n ap av bp bv | id p v | id fv rv fees]; cbn [handle].
  - unfold on_error_message.
    destruct (decodes msg); [| cbn; split; [reflexivity | lia]].
    change (bind (ret tt) ?f self) with (bind (lift (Ok tt)) f self).
    rewrite bind_lift_Ok.
    destruct (negb (id =? 0)); [| cbn; split; [reflexivity | lia]].
    destruct (status_sent_outcome id 0 0 0 self) as [-> _].
    rewrite status_zero_state. cbn.
    split; [reflexivity |]. destruct (id =? bid_id self); [| destruct (id =? ask_id self)]; cbn; lia.
  - destruct (tick_cases FUTURE i n ap av bp bv self)
      as [[Hs Ho] | (b0 & a0 & balance & _ & _ & _ & _ & Ht)].
    + rewrite Hs, Ho. cbn. split; [reflexivity | lia].
    + rewrite Ht. apply reconcile_insert_ids.
  - rewrite filled_result. cbn.
    split; [reflexivity |].
    destruct (decide (id ∈ bids self)); [| destruct (decide (id ∈ asks self))]; cbn; lia.
  - destruct (status_sent_outcome id fv rv fees self) as [-> _]. cbn.
    split; [reflexivity |]. unfold on_order_status_message, state_of.
    destruct (rv =? 0); [| cbn; lia]. rewrite bind_get.
    destruct (id =? bid_id self); [| destruct (id =? ask_id self)]; cbn; lia.
Qed.

Lemma run_insert_ids FUTURE decodes evs : forall self,
  insert_ids (run_sent FUTURE decodes evs self)
  = consecutive (order_ids self) (length (insert_ids (run_sent FUTURE decodes evs self)))
  /\ order_ids (run FUTURE decodes evs self)
     = order_ids self + Z.of_nat (length (insert_ids (run_sent FUTURE decodes evs self))).
Proof.
  induction evs as [|ev evs IH]; intros self; cbn [run_sent run fold_left].
  - cbn. split; [reflexivity | lia].
  - destruct (handle_insert_ids FUTURE decodes ev self) as [H1 H2].
    destruct (IH (state_of (handle FUTURE decodes ev self))) as [H3 H4].
    fold (run FUTURE decodes evs (state_of (handle FUTURE decodes ev self))).
    rewrite insert_ids_app, length_app.
    split.
    + rewrite <- consecutive_app, <- H2, <- H3, <- H1. reflexivity.
    + rewrite H4, H2. lia.
Qed.

(** X3: along any sequence of messages handled from the initial state,
    the identifiers of the inserts sent are 1, 2, 3, ... in the order sent,
    with no gap and no repetition, and the counter ends at one more than
    the number of inserts sent. *)
Theorem X3_insert_ids_consecutive FUTURE decodes evs :
  insert_ids (run_sent FUTURE decodes evs init)
  = consecutive 1 (length (insert_ids (run_sent FUTURE decodes evs init)))
  /\ order_ids (run FUTURE decodes evs init)
     = 1 + Z.of_nat (length (insert_ids (run_sent FUTURE decodes evs init))).
Proof. exact (run_insert_ids FUTURE decodes evs init). Qed.

(** ** Live orders and the sets of their sides *)

Lemma reconcile_live_tracked self p q v w :
  live_tracked self -> live_tracked (state_of (reconcile p q v w self)).
Proof.
  intros [Hb Ha]. unfold reconcile, state_of, live_tracked; cbn. case_conditions.
  all: split_conditions; cbn; split; intros Hn; try congruence;
    try (apply elem_of_union; right; apply elem_of_singleton; reflexivity);
    auto.
Qed.

Lemma status_live_tracked id fv rv fees self :
  ledger_ok self -> live_tracked self ->
  live_tracked (state_of (on_order_status_message id fv rv fees self)).
Proof.
  intros Hl [Hb Ha]. destruct (Z.eqb_spec rv 0) as [-> | Hrv].
  - rewrite status_zero_state. pose proof (ids_distinct _ Hl) as Hd.
    unfold live_tracked.
    destruct (Z.eqb_spec id (bid_id self)) as [E1 | E1];
      [| destruct (Z.eqb_spec id (ask_id self)) as [E2 | E2]]; cbn; split; intros Hn;
      try congruence; apply elem_of_difference; (split; [auto |]);
      rewrite elem_of_singleton; lia.
  - unfold on_order_status_message. apply Z.eqb_neq in Hrv. rewrite Hrv. split; assumption.
Qed.

Lemma filled_live_tracked id price volume self :
  live_tracked self -> live_tracked (state_of (on_order_filled_message id price volume self)).
Proof.
  intros H. rewrite filled_result. unfold state_of; cbn [fst snd].
  destruct (decide (id ∈ bids self)); [| destruct (decide (id ∈ asks self))]; exact H.
Qed.

Lemma error_state decodes id msg self :
  state_of (on_error_message decodes id msg self)
  = if decodes msg && negb (id =? 0)
    then state_of (on_order_status_message id 0 0 0 self) else self.
Proof.
  unfold on_error_message. destruct (decodes msg); [| reflexivity].
  change (bind (ret tt) ?f self) with (bind (lift (Ok tt)) f self).
  rewrite bind_lift_Ok. destruct (negb (id =? 0)); reflexivity.
Qed.

Lemma handle_live_tracked FUTURE decodes ev self :
  ledger_ok self -> live_tracked self ->
  live_tracked (state_of (handle FUTURE decodes ev self)).
Proof.
  intros Hl Ht. destruct ev as [id msg | i n ap av bp bv | id p v | id fv rv fees]; cbn [handle].
  - rewrite error_state. destruct (decodes msg && negb (id =? 0)); [| exact Ht].
    apply status_live_tracked; assumption.
  - destruct (tick_cases FUTURE i n ap av bp bv self)
      as [[Hs _] | (b0 & a0 & balance & _ & _ & _ & _ &HT)].
    + rewrite Hs. exact Ht.
    + rewrite HT. apply reconcile_live_tracked. exact Ht.
  - apply filled_live_tracked. exact Ht.
  - apply status_live_tracked; assumption.
Qed.

Lemma reachable_live_tracked FUTURE decodes self :
  reachable FUTURE decodes self -> live_tracked self.
Proof.
  induction 1 as [| self ev Hr IH].
  - split; cbn; congruence.
  - apply handle_live_tracked; [exact (reachable_ledger_ok _ _ _ Hr) | exact IH].
Qed.

(** X1: in every state the trader can reach from its initial state the
    counter of order identifiers is positive, the identifiers of the live
    bid and of the live ask are 0 or were issued before, they differ unless
    both are 0, every identifier kept in [bids] or [asks] is a positive one
    issued before, and no identifier is kept on both sides. *)
Theorem X1_reachable_ledger_invariant FUTURE decodes self :
  reachable FUTURE decodes self ->
  0 < order_ids self
  /\ 0 <= bid_id self < order_ids self
  /\ 0 <= ask_id self < order_ids self
  /\ (bid_id self = ask_id self -> bid_id self = 0 /\ ask_id self = 0)
  /\ (forall x, x ∈ bids self ∪ asks self -> 0 < x < order_ids self)
  /\ bids self ∩ asks self = ∅.
Proof.
  intros Hr. destruct (reachable_ledger_ok _ _ _ Hr) as [H1 H2 H3 H4 H5 H6 H7].
  split; [exact H1 |]. split; [exact H2 |]. split; [exact H3 |].
  split; [| split].
  - intros E. pose proof (H4 E). lia.
  - intros x Hx. apply elem_of_union in Hx as [Hx | Hx]; [apply H5 | apply H6]; exact Hx.
  - apply set_eq. intros x. rewrite elem_of_intersection. split.
    + intros [Hb Ha]. exfalso. exact (H7 x Hb Ha).
    + intros Hx. exfalso. exact (not_elem_of_empty x Hx).
Qed.

Lemma X1_witness :
  0 < order_ids ex_quoting
  /\ 0 <= bid_id ex_quoting < order_ids ex_quoting
  /\ 0 <= ask_id ex_quoting < order_ids ex_quoting
  /\ (bid_id ex_quoting = ask_id ex_quoting -> bid_id ex_quoting = 0 /\ ask_id ex_quoting = 0)
  /\ (forall x, x ∈ bids ex_quoting ∪ asks ex_quoting -> 0 < x < order_ids ex_quoting)
  /\ bids ex_quoting ∩ asks ex_quoting = ∅.
Proof.
  apply (X1_reachable_ledger_invariant 0 (fun _ => true) ex_quoting).
  exact (reachable_step 0 (fun _ => true) init
           (OrderBookUpdate 0 1 ex_ask_prices ex_heavy ex_bid_prices ex_empty)
           (reachable_init 0 (fun _ => true))).
Defined.

(** X2: in every reachable state a live bid (a [bid_id] other than 0) is a
    member of [bids] and a live ask a member of [asks]; hence a fill of the
    live bid adds its volume to the position and a fill of the live ask
    subtracts it. *)
Theorem X2_live_order_is_tracked FUTURE decodes self volume price :
  reachable FUTURE decodes self ->
  (bid_id self <> 0 ->
   bid_id self ∈ bids self
   /\ position (state_of (on_order_filled_message (bid_id self) price volume self))
      = position self + volume)
  /\ (ask_id self <> 0 ->
      ask_id self ∈ asks self
      /\ position (state_of (on_order_filled_message (ask_id self) price volume self))
         = position self - volume).
Proof.
  intros Hr. destruct (reachable_live_tracked _ _ _ Hr) as [Hb Ha].
  pose proof (sides_disjoint _ (reachable_ledger_ok _ _ _ Hr)) as Hd.
  split; intros Hn; rewrite filled_result; unfold state_of; cbn [fst snd].
  - specialize (Hb Hn). split; [exact Hb |].
    destruct (decide (bid_id self ∈ bids self)); [reflexivity | contradiction].
  - specialize (Ha Hn). split; [exact Ha |].
    destruct (decide (ask_id self ∈ bids self)) as [Hin |].
    + exfalso. exact (Hd _ Hin Ha).
    + destruct (decide (ask_id self ∈ asks self)); [reflexivity | contradiction].
Qed.

Lemma X2_witness :
  (bid_id ex_quoting <> 0 ->
   bid_id ex_quoting ∈ bids ex_quoting
   /\ position (state_of (on_order_filled_message (bid_id ex_quoting) 10000 10 ex_quoting))
      = position ex_quoting + 10)
  /\ (ask_id ex_quoting <> 0 ->
      ask_id ex_quoting ∈ asks ex_quoting
      /\ position (state_of (on_order_filled_message (ask_id ex_quoting) 10000 10 ex_quoting))
         = position ex_quoting - 10).
Proof.
  apply (X2_live_order_is_tracked 0 (fun _ => true) ex_quoting 10 10000).
  exact (reachable_step 0 (fun _ => true) init
           (OrderBookUpdate 0 1 ex_ask_prices ex_heavy ex_bid_prices ex_empty)
           (reachable_init 0 (fun _ => true))).
Defined.

(** ** A reconciliation in full *)

(** After a reconciliation every live order with a desired price rests at
    that price. *)
Lemma reconcile_prices self p q v w :
  (p <> 0 -> bid_id (state_of (reconcile p q v w self)) <> 0 ->
   bid_price (state_of (reconcile p q v w self)) = p)
  /\ (q <> 0 -> ask_id (state_of (reconcile p q v w self)) <> 0 ->
      ask_price (state_of (reconcile p q v w self)) = q).
Proof.
  unfold reconcile, state_of, not_in; cbn. case_conditions.
  all: split_conditions; cbn; split; intros Hp Hn; try reflexivity; try congruence.
  all: repeat match goal with
       | H : _ \/ _ |- _ => destruct H
       | H : negb _ = false |- _ => apply negb_false_iff in H
       | H : _ || _ = true |- _ => apply orb_true_iff in H
       | H : _ || _ = false |- _ => apply orb_false_iff in H; destruct H
       | H : (_ =? _) = true |- _ => apply Z.eqb_eq in H
       | H : (_ =? _) = false |- _ => apply Z.eqb_neq in H
       end; try lia.
Qed.

Lemma reconcile_outcome self p q v w : outcome (reconcile p q v w self) = Ok tt.
Proof. unfold reconcile, outcome; cbn. case_conditions; reflexivity. Qed.

Lemma reconcile_tracked self p q v w :
  bids self ⊆ bids (state_of (reconcile p q v w self))
  /\ asks self ⊆ asks (state_of (reconcile p q v w self)).
Proof.
  unfold reconcile, state_of; cbn. case_conditions.
  all: split; intros x Hx; try exact Hx; apply elem_of_union; left; exact Hx.
Qed.

(** ** The instructions and the outcome of a tick *)

(** X4: the instructions of a tick, in full.  On a tick of the traded
    instrument whose score is computed they are, in this order: the cancel
    of the live bid when the best bid price is neither 0 nor the price it
    rests at, the cancel of the live ask likewise, the insert of a bid at
    the best bid price when that price is not 0, no bid stays live and
    position + volume < 1000, and the insert of an ask when the best ask
    price is not 0, no ask stays live and position - volume > -1000; the
    ask takes the identifier after the bid's when both are inserted.  On a
    tick whose score computation raises, and on a tick for another
    instrument, nothing is sent. *)
Theorem X4_tick_instructions FUTURE instrument seq ap av bp bv self :
  sent (on_order_book_update_message FUTURE instrument seq ap av bp bv self)
  = match assess_market_balance ap av bp bv with
    | Ok balance =>
        if instrument =? FUTURE
        then expected_instructions self (nth 0 bp 0) (nth 0 ap 0)
               (fst (scale_volumes (position self) balance
                       (base_bid_volume (position self)) (base_ask_volume (position self))))
               (snd (scale_volumes (position self) balance
                       (base_bid_volume (position self)) (base_ask_volume (position self))))
        else []
    | Raise _ => []
    end.
Proof. exact (tick_sent FUTURE instrument seq ap av bp bv self). Qed.

(** X5: after a tick of the traded instrument whose score is computed, a
    live bid rests at the best bid price of the snapshot whenever that
    price is not 0, and a live ask at the best ask price whenever that one
    is not 0; after any other tick (the score computation raises, or the
    tick is for another instrument) the state is as before, so a quote
    whose price moved stays where it was. *)
Theorem X5_quotes_rest_at_desired_price FUTURE instrument seq ap av bp bv self :
  if (instrument =? FUTURE) && score_computed ap av bp bv
  then (nth 0 bp 0 <> 0 ->
        bid_id (state_of (on_order_book_update_message FUTURE instrument seq ap av bp bv self))
        <> 0 ->
        bid_price (state_of (on_order_book_update_message FUTURE instrument seq ap av bp bv
                               self))
        = nth 0 bp 0)
       /\ (nth 0 ap 0 <> 0 ->
           ask_id (state_of (on_order_book_update_message FUTURE instrument seq ap av bp bv
                               self))
           <> 0 ->
           ask_price (state_of (on_order_book_update_message FUTURE instrument seq ap av bp
                                  bv self))
           = nth 0 ap 0)
  else state_of (on_order_book_update_message FUTURE instrument seq ap av bp bv self) = self.
Proof.
  destruct ((instrument =? FUTURE) && score_computed ap av bp bv) eqn:Hq.
  - apply andb_prop in Hq as [Hi Hc]. apply Z.eqb_eq in Hi. subst instrument.
    unfold score_computed in Hc.
    destruct (assess_market_balance ap av bp bv) as [balance|e] eqn:Hs; [| discriminate Hc].
    rewrite (tick_reconcile _ _ _ _ _ _ _ _ Hs). apply reconcile_prices.
  - apply tick_idle. exact Hq.
Qed.

Lemma X5_witness :
  if (0 =? 0) && score_computed ex_ask_prices ex_heavy [10010; 9900; 9800; 0; 0] ex_empty
  then (nth 0 [10010; 9900; 9800; 0; 0] 0 <> 0 ->
        bid_id (state_of (on_order_book_update_message 0 0 2 ex_ask_prices ex_heavy
                            [10010; 9900; 9800; 0; 0] ex_empty ex_quoting)) <> 0 ->
        bid_price (state_of (on_order_book_update_message 0 0 2 ex_ask_prices ex_heavy
                               [10010; 9900; 9800; 0; 0] ex_empty ex_quoting))
        = nth 0 [10010; 9900; 9800; 0; 0] 0)
       /\ (nth 0 ex_ask_prices 0 <> 0 ->
           ask_id (state_of (on_order_book_update_message 0 0 2 ex_ask_prices ex_heavy
                               [10010; 9900; 9800; 0; 0] ex_empty ex_quoting)) <> 0 ->
           ask_price (state_of (on_order_book_update_message 0 0 2 ex_ask_prices ex_heavy
                                  [10010; 9900; 9800; 0; 0] ex_empty ex_quoting))
           = nth 0 ex_ask_prices 0)
  else state_of (on_order_book_update_message 0 0 2 ex_ask_prices ex_heavy
                   [10010; 9900; 9800; 0; 0] ex_empty ex_quoting) = ex_quoting.
Proof.
  exact (X5_quotes_rest_at_desired_price 0 0 2 ex_ask_prices ex_heavy
           [10010; 9900; 9800; 0; 0] ex_empty ex_quoting).
Defined.

(** X6: with the first three volumes of each side in range, a tick on the
    traded instrument returns normally when each of the four lists of the
    snapshot has three entries or more, and raises [IndexError] otherwise,
    in which case the state is as before and nothing was sent; a tick on
    another instrument returns normally, changes nothing and sends
    nothing. *)
Theorem X6_tick_outcome FUTURE instrument seq ap av bp bv self :
  volumes_in_range av -> volumes_in_range bv ->
  if (instrument =? FUTURE) && three_deep ap av bp bv
  then outcome (on_order_book_update_message FUTURE instrument seq ap av bp bv self) = Ok tt
  else outcome (on_order_book_update_message FUTURE instrument seq ap av bp bv self)
       = (if instrument =? FUTURE then Raise IndexError else Ok tt)
       /\ state_of (on_order_book_update_message FUTURE instrument seq ap av bp bv self) = self
       /\ sent (on_order_book_update_message FUTURE instrument seq ap av bp bv self) = [].
Proof.
  intros Hav Hbv.
  destruct (Z.eqb_spec instrument FUTURE) as [-> | Hi]; cbn [andb].
  - destruct (three_deep ap av bp bv) eqn:Hd.
    + apply three_deep_spec in Hd as (L1 & L2 & L3 & L4).
      destruct (assess_Ok ap av bp bv Hav Hbv L1 L2 L3 L4) as [z Hz].
      rewrite (tick_reconcile _ _ _ _ _ _ _ _ Hz). apply reconcile_outcome.
    + assert (Hr : exists e, assess_market_balance ap av bp bv = Raise e).
      { destruct (assess_market_balance ap av bp bv) as [z|e] eqn:E; [| eauto].
        apply assess_Ok_lengths in E. apply three_deep_spec in E. congruence. }
      destruct Hr as [e He]. pose proof (assess_Raise _ _ _ _ _ Hav Hbv He) as ->.
      unfold on_order_book_update_message. rewrite Z.eqb_refl.
      destruct bp as [|b0 bp]; [repeat split |].
      destruct ap as [|a0 ap]; [repeat split |].
      cbn [index nth_error]. rewrite bind_lift_Ok, bind_lift_Ok, bind_get, He.
      repeat split.
  - unfold on_order_book_update_message. apply Z.eqb_neq in Hi. rewrite Hi. repeat split.
Qed.

Lemma X6_witness :
  if (0 =? 0) && three_deep [10100] [50] [] []
  then outcome (on_order_book_update_message 0 0 1 [10100] [50] [] [] ex_quoting) = Ok tt
  else outcome (on_order_book_update_message 0 0 1 [10100] [50] [] [] ex_quoting)
       = (if 0 =? 0 then Raise IndexError else Ok tt)
       /\ state_of (on_order_book_update_message 0 0 1 [10100] [50] [] [] ex_quoting) = ex_quoting
       /\ sent (on_order_book_update_message 0 0 1 [10100] [50] [] [] ex_quoting) = [].
Proof.
  apply (X6_tick_outcome 0 0 1 [10100] [50] [] [] ex_quoting);
    unfold volumes_in_range; cbn [firstn]; repeat constructor; lia.
Defined.

(** ** Cancels, tracked identifiers and the position *)

Lemma reconcile_cancel_ids self p q v w id :
  In id (cancel_ids (sent (reconcile p q v w self))) ->
  id <> 0 /\ (id = bid_id self \/ id = ask_id self).
Proof.
  rewrite reconcile_sent_full.
  destruct (negb (bid_id self =? 0) && negb (p =? 0) && negb (p =? bid_price self)) eqn:CB;
  destruct (negb (ask_id self =? 0) && negb (q =? 0) && negb (q =? ask_price self)) eqn:CA;
  destruct (negb (p =? 0) && ((bid_id self =? 0) || negb (p =? bid_price self))
            && (position self + v <? 1000));
  destruct (negb (q =? 0) && ((ask_id self =? 0) || negb (q =? ask_price self))
            && (position self - w >? -1000));
  cbn; split_conditions; intros Hin;
  repeat match goal with U : _ \/ _ |- _ => destruct U end; try contradiction; subst; auto.
Qed.

(** X15: every cancel sent by an order-book update from a reachable state
    names an order other than 0 that was issued before and is either the
    live bid, kept in [bids], or the live ask, kept in [asks]. *)
Theorem X15_cancels_name_tracked_orders FUTURE decodes instrument seq ap av bp bv self id :
  reachable FUTURE decodes self ->
  In id (cancel_ids (sent (on_order_book_update_message FUTURE instrument seq ap av bp bv self))) ->
  id <> 0 /\ id < order_ids self
  /\ ((id = bid_id self /\ id ∈ bids self) \/ (id = ask_id self /\ id ∈ asks self)).
Proof.
  intros Hr Hin. pose proof (reachable_ledger_ok _ _ _ Hr) as Hl.
  destruct (reachable_live_tracked _ _ _ Hr) as [Hb Ha].
  destruct (tick_cases FUTURE instrument seq ap av bp bv self)
    as [[_ Ho] | (b0 & a0 & balance & _ & _ & _ & _ & Ht)].
  - rewrite Ho in Hin. destruct Hin.
  - rewrite Ht in Hin. apply reconcile_cancel_ids in Hin as [Hn [E | E]].
    + pose proof (bid_id_issued _ Hl). subst id. split; [exact Hn |]. split; [lia |].
      left. split; [reflexivity | exact (Hb Hn)].
    + pose proof (ask_id_issued _ Hl). subst id. split; [exact Hn |]. split; [lia |].
      right. split; [reflexivity | exact (Ha Hn)].
Qed.

Lemma X15_witness :
  1 <> 0 /\ 1 < order_ids ex_quoting
  /\ ((1 = bid_id ex_quoting /\ 1 ∈ bids ex_quoting)
      \/ (1 = ask_id ex_quoting /\ 1 ∈ asks ex_quoting)).
Proof.
  apply (X15_cancels_name_tracked_orders 0 (fun _ => true) 0 2 ex_ask_prices ex_heavy
           [10010; 9900; 9800; 0; 0] ex_empty ex_quoting 1).
  - exact (reachable_step 0 (fun _ => true) init
             (OrderBookUpdate 0 1 ex_ask_prices ex_heavy ex_bid_prices ex_empty)
             (reachable_init 0 (fun _ => true))).
  - vm_compute. left. reflexivity.
Defined.

(** The sets after a reconciliation: the identifiers of the inserts sent
    are added, each on its side, and nothing else changes. *)
Lemma reconcile_tracked_exact self p q v w :
  bids (state_of (reconcile p q v w self))
  = bids self ∪ list_to_set (side_insert_ids BUY (sent (reconcile p q v w self)))
  /\ asks (state_of (reconcile p q v w self))
     = asks self ∪ list_to_set (side_insert_ids SELL (sent (reconcile p q v w self))).
Proof.
  unfold reconcile, state_of, sent; cbn. case_conditions.
  all: cbn [side_insert_ids same_side list_to_set app];
    split; apply set_eq; intros x;
    rewrite ?elem_of_union, ?elem_of_singleton, ?elem_of_empty; tauto.
Qed.

(** X10: an order-book update changes the two sets only by adding the
    identifiers of the inserts it sends, those of the buy inserts to
    [bids] and those of the sell inserts to [asks]; so it never removes an
    identifier, and it adds none that it did not send an insert for.  A
    fill leaves both sets as they were. *)
Theorem X10_ticks_and_fills_keep_tracked_ids :
  (forall FUTURE instrument seq ap av bp bv self,
     bids (state_of (on_order_book_update_message FUTURE instrument seq ap av bp bv self))
     = bids self
       ∪ list_to_set
           (side_insert_ids BUY
              (sent (on_order_book_update_message FUTURE instrument seq ap av bp bv self)))
     /\ asks (state_of (on_order_book_update_message FUTURE instrument seq ap av bp bv self))
        = asks self
          ∪ list_to_set
              (side_insert_ids SELL
                 (sent (on_order_book_update_message FUTURE instrument seq ap av bp bv self)))
     /\ bids self
        ⊆ bids (state_of (on_order_book_update_message FUTURE instrument seq ap av bp bv self))
     /\ asks self
        ⊆ asks (state_of (on_order_book_update_message FUTURE instrument seq ap av bp bv self)))
  /\ (forall id price volume self,
        bids (state_of (on_order_filled_message id price volume self)) = bids self
        /\ asks (state_of (on_order_filled_message id price volume self)) = asks self).
Proof.
  split.
  - intros. destruct (tick_cases FUTURE instrument seq ap av bp bv self)
      as [[Hs Ho] | (b0 & a0 & balance & _ & _ & _ & _ & Ht)].
    + rewrite Hs, Ho. cbn [side_insert_ids list_to_set].
      repeat split; try (intros x Hx; exact Hx);
        apply set_eq; intros x; rewrite elem_of_union, elem_of_empty; tauto.
    + rewrite Ht. destruct (reconcile_tracked_exact self b0 a0
        (fst (scale_volumes (position self) balance
                (base_bid_volume (position self)) (base_ask_volume (position self))))
        (snd (scale_volumes (position self) balance
                (base_bid_volume (position self)) (base_ask_volume (position self)))))
        as [Hb Ha].
      split; [exact Hb |]. split; [exact Ha |]. apply reconcile_tracked.
  - intros. rewrite filled_result. unfold state_of; cbn [fst snd].
    destruct (decide (id ∈ bids self)); [| destruct (decide (id ∈ asks self))];
      split; reflexivity.
Qed.

(** X9: only a fill moves the position: an error message, an order-book
    update and a status message each leave it as it was. *)
Theorem X9_only_fills_move_position FUTURE decodes ev self :
  (forall id price volume, ev <> OrderFilled id price volume) ->
  position (state_of (handle FUTURE decodes ev self)) = position self.
Proof.
  intros Hev. destruct ev as [id msg | i n ap av bp bv | id p v | id fv rv fees]; cbn [handle].
  - rewrite error_state. destruct (decodes msg && negb (id =? 0)); [| reflexivity].
    rewrite status_zero_state. cbn.
    destruct (id =? bid_id self); [| destruct (id =? ask_id self)]; reflexivity.
  - destruct (tick_cases FUTURE i n ap av bp bv self)
      as [[Hs _] | (b0 & a0 & balance & _ & _ & _ & _ & Ht)].
    + rewrite Hs. reflexivity.
    + rewrite Ht. apply reconcile_position.
  - exfalso. exact (Hev id p v eq_refl).
  - unfold on_order_status_message, state_of. destruct (rv =? 0); [| reflexivity].
    rewrite bind_get.
    destruct (id =? bid_id self); [| destruct (id =? ask_id self)]; reflexivity.
Qed.

(** ** Status and error messages in reachable states *)

Lemma X9_witness :
  position (state_of (handle 0 (fun _ => true) (OrderStatus 1 20 0 0) ex_quoting))
  = position ex_quoting.
Proof.
  apply (X9_only_fills_move_position 0 (fun _ => true) (OrderStatus 1 20 0 0) ex_quoting).
  intros id price volume. discriminate.
Defined.

(** In a reachable state a closing status clears the two sides alike. *)
Lemma status_zero_reachable FUTURE decodes id fv fees self :
  reachable FUTURE decodes self ->
  state_of (on_order_status_message id fv 0 fees self)
  = {| order_ids := order_ids self;
       bids := bids self ∖ {[id]};
       asks := asks self ∖ {[id]};
       ask_id := if id =? ask_id self then 0 else ask_id self;
       ask_price := ask_price self;
       bid_id := if id =? bid_id self then 0 else bid_id self;
       bid_price := bid_price self;
       position := position self |}.
Proof.
  intros Hr. pose proof (ids_distinct _ (reachable_ledger_ok _ _ _ Hr)) as Hd.
  rewrite status_zero_state. destruct self as [n B A ai ap bi bp pos]. cbn in *.
  destruct (Z.eqb_spec id bi) as [E1 | E1]; destruct (Z.eqb_spec id ai) as [E2 | E2];
    cbn; unfold set_asks, set_bids, set_bid_id, set_ask_id; cbn; f_equal; lia.
Qed.

(** X8: in a reachable state a status message with remaining volume 0
    removes the named order from both sets and clears whichever of the live
    bid and the live ask carries its identifier, leaving the counter, the
    prices and the position as they were; with a remaining volume other
    than 0 the state is as before. *)
Theorem X8_status_closes_the_named_order FUTURE decodes id fv rv fees self :
  reachable FUTURE decodes self ->
  state_of (on_order_status_message id fv rv fees self)
  = if rv =? 0
    then {| order_ids := order_ids self;
            bids := bids self ∖ {[id]};
            asks := asks self ∖ {[id]};
            ask_id := if id =? ask_id self then 0 else ask_id self;
            ask_price := ask_price self;
            bid_id := if id =? bid_id self then 0 else bid_id self;
            bid_price := bid_price self;
            position := position self |}
    else self.
Proof.
  intros Hr. destruct (Z.eqb_spec rv 0) as [-> | Hrv].
  - exact (status_zero_reachable _ _ _ _ _ _ Hr).
  - unfold on_order_status_message. apply Z.eqb_neq in Hrv. rewrite Hrv. reflexivity.
Qed.

Lemma X8_witness :
  state_of (on_order_status_message 2 10 0 0 ex_quoting)
  = if 0 =? 0
    then {| order_ids := order_ids ex_quoting;
            bids := bids ex_quoting ∖ {[2]};
            asks := asks ex_quoting ∖ {[2]};
            ask_id := if 2 =? ask_id ex_quoting then 0 else ask_id ex_quoting;
            ask_price := ask_price ex_quoting;
            bid_id := if 2 =? bid_id ex_quoting then 0 else bid_id ex_quoting;
            bid_price := bid_price ex_quoting;
            position := position ex_quoting |}
    else ex_quoting.
Proof.
  apply (X8_status_closes_the_named_order 0 (fun _ => true) 2 10 0 0 ex_quoting).
  exact (reachable_step 0 (fun _ => true) init
           (OrderBookUpdate 0 1 ex_ask_prices ex_heavy ex_bid_prices ex_empty)
           (reachable_init 0 (fun _ => true))).
Defined.

Lemma error_outcome decodes id msg self :
  outcome (on_error_message decodes id msg self)
  = if decodes msg then Ok tt else Raise UnicodeDecodeError.
Proof.
  unfold on_error_message. destruct (decodes msg); [| reflexivity].
  change (bind (ret tt) ?f self) with (bind (lift (Ok tt)) f self).
  rewrite bind_lift_Ok. destruct (negb (id =? 0)); [| reflexivity].
  apply status_sent_outcome.
Qed.

(** X7: in a reachable state, an error message for an order other than 0
    whose text decodes is handled as the closing status of that order:
    afterwards the order is neither the live bid nor the live ask and is in
    neither set; when the text does not decode the handler raises
    [UnicodeDecodeError] and the state is as before. *)
Theorem X7_error_closes_the_order FUTURE decodes id msg self :
  reachable FUTURE decodes self -> id <> 0 ->
  if decodes msg
  then outcome (on_error_message decodes id msg self) = Ok tt
       /\ state_of (on_error_message decodes id msg self)
          = state_of (on_order_status_message id 0 0 0 self)
       /\ bid_id (state_of (on_error_message decodes id msg self)) <> id
       /\ ask_id (state_of (on_error_message decodes id msg self)) <> id
       /\ (id ∉ bids (state_of (on_error_message decodes id msg self)))
       /\ (id ∉ asks (state_of (on_error_message decodes id msg self)))
  else outcome (on_error_message decodes id msg self) = Raise UnicodeDecodeError
       /\ state_of (on_error_message decodes id msg self) = self.
Proof.
  intros Hr Hid. rewrite error_outcome, error_state.
  destruct (decodes msg); cbn [andb]; [| split; reflexivity].
  apply Z.eqb_neq in Hid. rewrite Hid. cbn [negb]. apply Z.eqb_neq in Hid.
  split; [reflexivity |]. split; [reflexivity |].
  rewrite (status_zero_reachable _ _ _ _ _ _ Hr). cbn.
  repeat split.
  - destruct (Z.eqb_spec id (bid_id self)); lia.
  - destruct (Z.eqb_spec id (ask_id self)); lia.
  - intros H. apply elem_of_difference in H as [_ H]. apply H, elem_of_singleton. reflexivity.
  - intros H. apply elem_of_difference in H as [_ H]. apply H, elem_of_singleton. reflexivity.
Qed.

Lemma X7_witness :
  if (fun _ : list Byte.byte => true) []
  then outcome (on_error_message (fun _ => true) 1 [] ex_quoting) = Ok tt
       /\ state_of (on_error_message (fun _ => true) 1 [] ex_quoting)
          = state_of (on_order_status_message 1 0 0 0 ex_quoting)
       /\ bid_id (state_of (on_error_message (fun _ => true) 1 [] ex_quoting)) <> 1
       /\ ask_id (state_of (on_error_message (fun _ => true) 1 [] ex_quoting)) <> 1
       /\ (1 ∉ bids (state_of (on_error_message (fun _ => true) 1 [] ex_quoting)))
       /\ (1 ∉ asks (state_of (on_error_message (fun _ => true) 1 [] ex_quoting)))
  else outcome (on_error_message (fun _ => true) 1 [] ex_quoting) = Raise UnicodeDecodeError
       /\ state_of (on_error_message (fun _ => true) 1 [] ex_quoting) = ex_quoting.
Proof.
  apply (X7_error_closes_the_order 0 (fun _ => true) 1 [] ex_quoting).
  - exact (reachable_step 0 (fun _ => true) init
             (OrderBookUpdate 0 1 ex_ask_prices ex_heavy ex_bid_prices ex_empty)
             (reachable_init 0 (fun _ => true))).
  - lia.
Defined.

(** ** What the score reads and what it does to the volumes *)

Lemma balance_step_ext weights (asks asks' bids bids' : list (Z * Z)) balance i :
  map snd asks = map snd asks' -> map snd bids = map snd bids' ->
  balance_step weights asks bids balance i = balance_step weights asks' bids' balance i.
Proof.
  intros Ha Hb.
  assert (Ea : option_map snd (nth_error asks i) = option_map snd (nth_error asks' i))
    by (rewrite <- !nth_error_map, Ha; reflexivity).
  assert (Eb : option_map snd (nth_error bids i) = option_map snd (nth_error bids' i))
    by (rewrite <- !nth_error_map, Hb; reflexivity).
  unfold balance_step, index.
  destruct (nth_error asks i) as [a|], (nth_error asks' i) as [a'|]; cbn in Ea;
    try discriminate; [| reflexivity].
  injection Ea as Ea. cbn [mbind result_bind]. rewrite Ea.
  destruct (nth_error weights i) as [w|]; cbn [mbind result_bind]; [| reflexivity].
  destruct (PyFloat.int_mul (snd a') w) as [x|]; cbn [mbind result_bind]; [| reflexivity].
  destruct (nth_error bids i) as [b|], (nth_error bids' i) as [b'|]; cbn in Eb;
    try discriminate; [| reflexivity].
  injection Eb as Eb. cbn [mbind result_bind]. rewrite Eb. reflexivity.
Qed.

Lemma for_range_ext body body' indices : forall balance,
  (forall b i, body b i = body' b i) ->
  for_range body indices balance = for_range body' indices balance.
Proof.
  induction indices as [|i rest IH]; intros balance H; cbn [for_range]; [reflexivity |].
  rewrite H. destruct (body' balance i) as [b|]; cbn [mbind result_bind]; [| reflexivity].
  apply IH, H.
Qed.

Lemma map_snd_combine (l1 l2 : list Z) :
  (length l2 <= length l1)%nat -> map snd (combine l1 l2) = l2.
Proof.
  revert l1. induction l2 as [|y l2 IH]; intros l1 H.
  - destruct l1; reflexivity.
  - destruct l1 as [|x l1]; cbn in H; [lia |]. cbn. f_equal. apply IH. lia.
Qed.

Lemma map_snd_levels (prices volumes : list Z) :
  (3 <= length prices)%nat ->
  map snd (combine (firstn 3 prices) (firstn 3 volumes)) = firstn 3 volumes.
Proof.
  intros H. apply map_snd_combine. rewrite !length_firstn. lia.
Qed.

(** X11: the score depends only on the first three volumes of each side:
    two snapshots with three price levels or more per side whose first
    three ask volumes and first three bid volumes agree have the same
    score, whatever their prices and their further levels. *)
Theorem X11_score_reads_three_volumes_only ap ap' av av' bp bp' bv bv' :
  (3 <= length ap)%nat -> (3 <= length ap')%nat ->
  (3 <= length bp)%nat -> (3 <= length bp')%nat ->
  firstn 3 av = firstn 3 av' -> firstn 3 bv = firstn 3 bv' ->
  assess_market_balance ap av bp bv = assess_market_balance ap' av' bp' bv'.
Proof.
  intros L1 L2 L3 L4 Ha Hb. unfold assess_market_balance. cbn [length].
  destruct (PyFloat.of_int 0) as [b0|]; cbn [mbind result_bind]; [| reflexivity].
  rewrite (for_range_ext _
             (balance_step [PyFloat.lit_0_7; PyFloat.lit_0_2; PyFloat.lit_0_1]
                (combine (firstn 3 ap') (firstn 3 av')) (combine (firstn 3 bp') (firstn 3 bv')))).
  - reflexivity.
  - intros b i. apply balance_step_ext.
    + rewrite !map_snd_levels by assumption. exact Ha.
    + rewrite !map_snd_levels by assumption. exact Hb.
Qed.

Lemma X11_witness :
  assess_market_balance ex_ask_prices ex_heavy ex_bid_prices ex_empty
  = assess_market_balance [1; 2; 3] [1000; 1000; 1000; 77; 78; 79] [4; 5; 6; 7] [0; 0; 0; 5].
Proof.
  apply (X11_score_reads_three_volumes_only ex_ask_prices [1; 2; 3] ex_heavy
           [1000; 1000; 1000; 77; 78; 79] ex_bid_prices [4; 5; 6; 7] ex_empty [0; 0; 0; 5]);
    cbn; try lia; reflexivity.
Defined.

Lemma small_quot S : -1000 < S < 1000 -> S ÷ 1000 = 0.
Proof.
  intros H. pose proof (Z.quot_rem' S 1000) as Hqr.
  destruct (Z_le_gt_dec 0 S) as [Hs | Hs].
  - pose proof (Z.rem_bound_pos S 1000 Hs ltac:(lia)). lia.
  - pose proof (Z.rem_nonpos S 1000 ltac:(lia) ltac:(lia)).
    pose proof (Z.rem_bound_abs S 1000 ltac:(lia)). lia.
Qed.

(** X12: for volumes in [0, 2^32), when the volumes of the three best
    levels of the two sides, weighted 0.7, 0.2 and 0.1, differ by less than
    100 ([weighted_difference], ten times that difference, lies strictly
    between -1000 and 1000), the score is 0 and the tick quotes the base
    volumes unscaled, at any position. *)
Theorem X12_small_imbalance_leaves_base_volumes
    FUTURE seq self p1 p2 p3 ps a1 a2 a3 avs q1 q2 q3 qs b1 b2 b3 bvs :
  0 <= a1 < 2 ^ 32 -> 0 <= a2 < 2 ^ 32 -> 0 <= a3 < 2 ^ 32 ->
  0 <= b1 < 2 ^ 32 -> 0 <= b2 < 2 ^ 32 -> 0 <= b3 < 2 ^ 32 ->
  -1000 < weighted_difference a1 a2 a3 b1 b2 b3 < 1000 ->
  assess_market_balance (p1 :: p2 :: p3 :: ps) (a1 :: a2 :: a3 :: avs)
    (q1 :: q2 :: q3 :: qs) (b1 :: b2 :: b3 :: bvs) = Ok 0
  /\ on_order_book_update_message FUTURE FUTURE seq (p1 :: p2 :: p3 :: ps)
       (a1 :: a2 :: a3 :: avs) (q1 :: q2 :: q3 :: qs) (b1 :: b2 :: b3 :: bvs) self
     = reconcile q1 p1 (base_bid_volume (position self)) (base_ask_volume (position self)) self.
Proof.
  intros Ha1 Ha2 Ha3 Hb1 Hb2 Hb3 HS.
  destruct (assess_score_cases p1 p2 p3 ps a1 a2 a3 avs q1 q2 q3 qs b1 b2 b3 bvs
              Ha1 Ha2 Ha3 Hb1 Hb2 Hb3) as (z & Hz & Hc).
  assert (z = 0) as ->.
  { unfold exact_score in Hc. pose proof (small_quot _ HS) as Hq. rewrite Hq in Hc.
    destruct Hc as [-> | (Hr & Hn & _)]; [reflexivity |].
    pose proof (Z.quot_rem' (weighted_difference a1 a2 a3 b1 b2 b3) 1000). lia. }
  split; [exact Hz |].
  rewrite (tick_reconcile _ _ _ _ _ _ _ _ Hz), scale_volumes_eq. cbn [nth].
  destruct (position self <=? 600); reflexivity.
Qed.

Lemma X12_witness :
  assess_market_balance (10100 :: 10200 :: 10300 :: [0; 0]) (300 :: 200 :: 100 :: [0; 0])
    (10000 :: 9900 :: 9800 :: [0; 0]) (300 :: 200 :: 100 :: [0; 0]) = Ok 0
  /\ on_order_book_update_message 0 0 1 (10100 :: 10200 :: 10300 :: [0; 0])
       (300 :: 200 :: 100 :: [0; 0]) (10000 :: 9900 :: 9800 :: [0; 0])
       (300 :: 200 :: 100 :: [0; 0]) init
     = reconcile 10000 10100 (base_bid_volume (position init))
         (base_ask_volume (position init)) init.
Proof.
  apply (X12_small_imbalance_leaves_base_volumes 0 1 init
           10100 10200 10300 [0; 0] 300 200 100 [0; 0]
           10000 9900 9800 [0; 0] 300 200 100 [0; 0]); unfold weighted_difference; lia.
Defined.

Lemma large_quot S :
  2000 < Z.abs S ->
  (0 < S -> 2 <= S ÷ 1000 /\ (Z.rem S 1000 = 0 -> 3 <= S ÷ 1000))
  /\ (S < 0 -> S ÷ 1000 <= -2 /\ (Z.rem S 1000 = 0 -> S ÷ 1000 <= -3)).
Proof.
  intros H. pose proof (Z.quot_rem' S 1000) as Hqr. split; intros Hs.
  - pose proof (Z.rem_bound_pos S 1000 ltac:(lia) ltac:(lia)). lia.
  - pose proof (Z.rem_nonpos S 1000 ltac:(lia) ltac:(lia)).
    pose proof (Z.rem_bound_abs S 1000 ltac:(lia)). lia.
Qed.

(** X13: for volumes in [0, 2^32), when the weighted volumes of the two
    sides differ by more than 200 ([weighted_difference] beyond 2000 in
    absolute value) and the position is at most the soft limit, exactly one
    side is doubled: the bid volume when the asks are the heavier side, the
    ask volume when the bids are; the other side keeps its base volume. *)
Theorem X13_large_imbalance_doubles_one_side
    FUTURE seq self p1 p2 p3 ps a1 a2 a3 avs q1 q2 q3 qs b1 b2 b3 bvs :
  0 <= a1 < 2 ^ 32 -> 0 <= a2 < 2 ^ 32 -> 0 <= a3 < 2 ^ 32 ->
  0 <= b1 < 2 ^ 32 -> 0 <= b2 < 2 ^ 32 -> 0 <= b3 < 2 ^ 32 ->
  2000 < Z.abs (weighted_difference a1 a2 a3 b1 b2 b3) ->
  position self <= POSITION_SOFT_LIMIT ->
  on_order_book_update_message FUTURE FUTURE seq (p1 :: p2 :: p3 :: ps)
    (a1 :: a2 :: a3 :: avs) (q1 :: q2 :: q3 :: qs) (b1 :: b2 :: b3 :: bvs) self
  = if 0 <? weighted_difference a1 a2 a3 b1 b2 b3
    then reconcile q1 p1 (base_bid_volume (position self) * 2)
           (base_ask_volume (position self)) self
    else reconcile q1 p1 (base_bid_volume (position self))
           (base_ask_volume (position self) * 2) self.
Proof.
  intros Ha1 Ha2 Ha3 Hb1 Hb2 Hb3 HS Hp.
  destruct (assess_score_cases p1 p2 p3 ps a1 a2 a3 avs q1 q2 q3 qs b1 b2 b3 bvs
              Ha1 Ha2 Ha3 Hb1 Hb2 Hb3) as (z & Hz & Hc).
  unfold exact_score in Hc.
  set (S := weighted_difference a1 a2 a3 b1 b2 b3) in *.
  destruct (large_quot S HS) as (Hpos & Hneg).
  assert (Hz2 : (0 < S -> 2 <= z) /\ (S < 0 -> z <= -2)).
  { destruct Hc as [-> | (Hr & Hn & ->)]; [tauto |].
    split; intros Hs; [destruct (Hpos Hs) as [_ H3] | destruct (Hneg Hs) as [_ H3]];
      specialize (H3 Hr); lia. }
  rewrite (tick_reconcile _ _ _ _ _ _ _ _ Hz), scale_volumes_eq. cbn [nth].
  unfold POSITION_SOFT_LIMIT in Hp. apply Z.leb_le in Hp. rewrite Hp.
  destruct (Z.ltb_spec 0 S) as [HS0 | HS0].
  - destruct (Z.ltb_spec 0 z); [| lia]. cbn [fst snd].
    replace (Z.min z 2) with 2 by lia. reflexivity.
  - destruct (Z.ltb_spec 0 z); [lia |]. destruct (Z.ltb_spec z 0); [| lia]. cbn [fst snd].
    replace (Z.min (Z.abs z) 2) with 2 by lia. reflexivity.
Qed.

Lemma X13_witness :
  on_order_book_update_message 0 0 1 (10100 :: 10200 :: 10300 :: [0; 0])
    (1000 :: 1000 :: 1000 :: [0; 0]) (10000 :: 9900 :: 9800 :: [0; 0])
    (0 :: 0 :: 0 :: [0; 0]) init
  = if 0 <? weighted_difference 1000 1000 1000 0 0 0
    then reconcile 10000 10100 (base_bid_volume (position init) * 2)
           (base_ask_volume (position init)) init
    else reconcile 10000 10100 (base_bid_volume (position init))
           (base_ask_volume (position init) * 2) init.
Proof.
  apply (X13_large_imbalance_doubles_one_side 0 1 init
           10100 10200 10300 [0; 0] 1000 1000 1000 [0; 0]
           10000 9900 9800 [0; 0] 0 0 0 [0; 0]);
    unfold weighted_difference, POSITION_SOFT_LIMIT; cbn [position init]; lia.
Defined.

(** X14: for volumes in [0, 2^32) the score is computed and never
    overstates the imbalance: a thousand times its absolute value is at
    most the absolute value of [weighted_difference] (ten times the
    weighted difference of the volumes) and falls short of it by at most
    1000; a positive score means heavier asks, a negative one heavier bids;
    and its absolute value is at most 2^32 / 100. *)
Theorem X14_score_never_overstates
    p1 p2 p3 ps a1 a2 a3 avs q1 q2 q3 qs b1 b2 b3 bvs :
  0 <= a1 < 2 ^ 32 -> 0 <= a2 < 2 ^ 32 -> 0 <= a3 < 2 ^ 32 ->
  0 <= b1 < 2 ^ 32 -> 0 <= b2 < 2 ^ 32 -> 0 <= b3 < 2 ^ 32 ->
  exists z,
    assess_market_balance (p1 :: p2 :: p3 :: ps) (a1 :: a2 :: a3 :: avs)
      (q1 :: q2 :: q3 :: qs) (b1 :: b2 :: b3 :: bvs) = Ok z
    /\ 1000 * Z.abs z <= Z.abs (weighted_difference a1 a2 a3 b1 b2 b3)
       <= 1000 * Z.abs z + 1000
    /\ (0 < z -> 0 < weighted_difference a1 a2 a3 b1 b2 b3)
    /\ (z < 0 -> weighted_difference a1 a2 a3 b1 b2 b3 < 0)
    /\ Z.abs z <= 2 ^ 32 / 100.
Proof.
  intros Ha1 Ha2 Ha3 Hb1 Hb2 Hb3.
  destruct (assess_score_cases p1 p2 p3 ps a1 a2 a3 avs q1 q2 q3 qs b1 b2 b3 bvs
              Ha1 Ha2 Ha3 Hb1 Hb2 Hb3) as (z & Hz & Hc).
  exists z. split; [exact Hz |].
  unfold exact_score in Hc.
  assert (HSb : Z.abs (weighted_difference a1 a2 a3 b1 b2 b3) < 10 * 2 ^ 32)
    by (unfold weighted_difference; lia).
  set (S := weighted_difference a1 a2 a3 b1 b2 b3) in *.
  pose proof (Z.quot_rem' S 1000) as Hqr.
  change (2 ^ 32 / 100) with 42949672. change (2 ^ 32) with 4294967296 in HSb.
  destruct (Z_le_gt_dec 0 S) as [Hs | Hs].
  - pose proof (Z.rem_bound_pos S 1000 Hs ltac:(lia)).
    destruct Hc as [-> | (Hr & Hn & ->)]; lia.
  - pose proof (Z.rem_nonpos S 1000 ltac:(lia) ltac:(lia)).
    pose proof (Z.rem_bound_abs S 1000 ltac:(lia)).
    destruct Hc as [-> | (Hr & Hn & ->)]; lia.
Qed.

Lemma X14_witness :
  exists z,
    assess_market_balance (10100 :: 10200 :: 10300 :: [0; 0]) (12 :: 324 :: 268 :: [0; 0])
      (10000 :: 9900 :: 9800 :: [0; 0]) (0 :: 0 :: 0 :: [0; 0]) = Ok z
    /\ 1000 * Z.abs z <= Z.abs (weighted_difference 12 324 268 0 0 0)
       <= 1000 * Z.abs z + 1000
    /\ (0 < z -> 0 < weighted_difference 12 324 268 0 0 0)
    /\ (z < 0 -> weighted_difference 12 324 268 0 0 0 < 0)
    /\ Z.abs z <= 2 ^ 32 / 100.
Proof.
  apply (X14_score_never_overstates 10100 10200 10300 [0; 0] 12 324 268 [0; 0]
           10000 9900 9800 [0; 0] 0 0 0 [0; 0]); lia.
Defined.

(** ** The same snapshot delivered twice *)

(** A reconciliation that sends nothing changes nothing. *)
Lemma reconcile_quiet self p q v w :
  sent (reconcile p q v w self) = [] ->
  reconcile p q v w self = (Ok tt, self, []).
Proof.
  unfold reconcile, sent; cbn. case_conditions; intros H; try discriminate H.
  destruct self; reflexivity.
Qed.

(** A side with a desired price that has no live order after a
    reconciliation was refused by the position limit. *)
Lemma reconcile_unquoted self p q v w :
  0 < order_ids self ->
  (p <> 0 -> bid_id (state_of (reconcile p q v w self)) = 0 ->
   1000 <= position self + v)
  /\ (q <> 0 -> ask_id (state_of (reconcile p q v w self)) = 0 ->
      position self - w <= -1000).
Proof.
  intros Hn. unfold reconcile, state_of, not_in, POSITION_LIMIT; cbn. case_conditions.
  all: split_conditions; cbn in *; split; intros Hp Hz; try lia.
  all: repeat match goal with
       | H : _ \/ _ |- _ => destruct H
       | H : negb _ = false |- _ => apply negb_false_iff in H
       | H : _ || _ = true |- _ => apply orb_true_iff in H
       | H : _ || _ = false |- _ => apply orb_false_iff in H; destruct H
       | H : (_ =? _) = true |- _ => apply Z.eqb_eq in H
       | H : (_ =? _) = false |- _ => apply Z.eqb_neq in H
       | H : (_ <? _) = false |- _ => apply Z.ltb_ge in H
       | H : (_ <? _) = true |- _ => apply Z.ltb_lt in H
       end; try lia.
Qed.

Lemma reconcile_twice self p q v w :
  0 < order_ids self ->
  reconcile p q v w (state_of (reconcile p q v w self))
  = (Ok tt, state_of (reconcile p q v w self), []).
Proof.
  intros Hn. apply reconcile_quiet. rewrite reconcile_sent_full.
  destruct (reconcile_prices self p q v w) as [Pb Pa].
  destruct (reconcile_unquoted self p q v w Hn) as [Ub Ua].
  rewrite reconcile_position.
  set (s1 := state_of (reconcile p q v w self)) in *.
  destruct (Z.eqb_spec p 0) as [Hp | Hp], (Z.eqb_spec q 0) as [Hq | Hq];
    destruct (Z.eqb_spec (bid_id s1) 0) as [Hb | Hb], (Z.eqb_spec (ask_id s1) 0) as [Ha | Ha];
    cbn [negb andb orb app];
    rewrite ?(Pb Hp Hb), ?(Pa Hq Ha), ?Z.eqb_refl; cbn [negb andb orb app];
    try reflexivity.
  all: try (pose proof (Ub Hp Hb) as Lb;
            replace (position self + v <? 1000) with false by (symmetry; apply Z.ltb_ge; lia));
       try (pose proof (Ua Hq Ha) as La;
            replace (position self - w >? -1000) with false
              by (symmetry; rewrite Z.gtb_ltb; apply Z.ltb_ge; lia));
       cbn [negb andb orb app]; rewrite ?andb_false_r; try reflexivity.
Qed.

(** X16: delivering the same snapshot again right after a tick (with any
    sequence number) sends no instruction and leaves the state as the first
    tick left it, with the outcome of the first tick: identifiers are not
    spent and no order is cancelled or inserted twice. *)
Theorem X16_repeated_snapshot_is_silent
    FUTURE decodes instrument seq seq' ap av bp bv self :
  reachable FUTURE decodes self ->
  on_order_book_update_message FUTURE instrument seq' ap av bp bv
    (state_of (on_order_book_update_message FUTURE instrument seq ap av bp bv self))
  = (outcome (on_order_book_update_message FUTURE instrument seq ap av bp bv self),
     state_of (on_order_book_update_message FUTURE instrument seq ap av bp bv self),
     []).
Proof.
  intros Hr. pose proof (ids_positive _ (reachable_ledger_ok _ _ _ Hr)) as Hn.
  change (on_order_book_update_message FUTURE instrument seq' ap av bp bv)
    with (on_order_book_update_message FUTURE instrument seq ap av bp bv).
  destruct (tick_cases FUTURE instrument seq ap av bp bv self)
    as [[Hs Ho] | (b0 & a0 & balance & -> & _ & _ & Hb & _)].
  - rewrite Hs.
    destruct (on_order_book_update_message FUTURE instrument seq ap av bp bv self)
      as [[r s] o].
    unfold state_of, sent in Hs, Ho; cbn in Hs, Ho. subst s o. reflexivity.
  - rewrite (tick_reconcile FUTURE seq ap av bp bv self balance Hb).
    rewrite (tick_reconcile FUTURE seq ap av bp bv _ balance Hb).
    rewrite reconcile_position, reconcile_outcome.
    apply reconcile_twice. exact Hn.
Qed.

Lemma X16_witness :
  on_order_book_update_message 0 0 3 ex_ask_prices ex_heavy ex_bid_prices ex_empty
    (state_of (on_order_book_update_message 0 0 2 ex_ask_prices ex_heavy ex_bid_prices
                 ex_empty ex_quoting))
  = (outcome (on_order_book_update_message 0 0 2 ex_ask_prices ex_heavy ex_bid_prices
                ex_empty ex_quoting),
     state_of (on_order_book_update_message 0 0 2 ex_ask_prices ex_heavy ex_bid_prices
                 ex_empty ex_quoting),
     []).
Proof.
  apply (X16_repeated_snapshot_is_silent 0 (fun _ => true) 0 2 3
           ex_ask_prices ex_heavy ex_bid_prices ex_empty ex_quoting).
  exact (reachable_step 0 (fun _ => true) init
           (OrderBookUpdate 0 1 ex_ask_prices ex_heavy ex_bid_prices ex_empty)
           (reachable_init 0 (fun _ => true))).
Defined.
